(** * Verification of the repository snapshot collector (main.py)

    A shallow embedding of the traversal-and-filtering engine of main.py:
    [load_gitignore], [is_ignored], [get_depth] and
    [generate_file_tree_and_content], together with the Python string and
    path primitives they call, and of its callers [send_message_to_llm],
    [handle_repos] and [main], with the chat client and the JSON serializer
    left as parameters.

    Modelling conventions.
    - A Python [str] is a [string]; each character stands for one code point
      below 256 (Latin-1 range).  Code points above 255 are outside the model.
    - [os.sep] is "/" (POSIX).
    - Python integers are [Z].
    - The dictionary [repo_data] is a [gmap string string].
    - File-system operations that can raise return [exn + _]. *)

From Stdlib Require Import ZArith Ascii String.
From stdpp Require Import base gmap strings list.

Local Open Scope Z_scope.

(** ** Python string primitives *)

Module PyStr.

(** [s.startswith(prefix)] *)
Fixpoint startswith (s prefix : string) {struct prefix} : bool :=
  match prefix with
  | EmptyString => true
  | String c prefix' =>
      match s with
      | EmptyString => false
      | String d s' => Ascii.eqb d c && startswith s' prefix'
      end
  end.

(** [s.endswith(suffix)]: some tail of [s] is [suffix]. *)
Fixpoint endswith (s suffix : string) : bool :=
  String.eqb s suffix ||
  match s with
  | EmptyString => false
  | String _ s' => endswith s' suffix
  end.

(** [c.lower()] on one code point below 256: A-Z, and the Latin-1 capitals
    U+00C0..U+00DE except the multiplication sign U+00D7. *)
Definition lower_char (c : ascii) : ascii :=
  let n := N_of_ascii c in
  if ((65 <=? n) && (n <=? 90) ||
      (192 <=? n) && (n <=? 222) && negb (n =? 215))%N
  then ascii_of_N (n + 32) else c.

(** [s.lower()] *)
Fixpoint lower (s : string) : string :=
  match s with
  | EmptyString => EmptyString
  | String c s' => String (lower_char c) (lower s')
  end.

(** [c.isspace()] on one code point below 256: TAB, LF, VT, FF, CR,
    FS, GS, RS, US, SPACE, NEL (U+0085) and NBSP (U+00A0). *)
Definition isspace (c : ascii) : bool :=
  let n := N_of_ascii c in
  ((9 <=? n) && (n <=? 13) || (28 <=? n) && (n <=? 32) ||
   (n =? 133) || (n =? 160))%N.

(** [s.lstrip()] *)
Fixpoint lstrip (s : string) : string :=
  match s with
  | EmptyString => EmptyString
  | String c s' => if isspace c then lstrip s' else s
  end.

(** [s.rstrip()] *)
Fixpoint rstrip (s : string) : string :=
  match s with
  | EmptyString => EmptyString
  | String c s' =>
      match rstrip s' with
      | EmptyString => if isspace c then EmptyString else String c EmptyString
      | r => String c r
      end
  end.

(** [s.strip()] *)
Definition strip (s : string) : string := rstrip (lstrip s).

(** [s.split(sep)] for a one-character separator: never empty, the empty
    string splits into one empty segment. *)
Fixpoint split (sep : ascii) (s : string) : list string :=
  match s with
  | EmptyString => [EmptyString]
  | String c s' =>
      if Ascii.eqb c sep then EmptyString :: split sep s'
      else match split sep s' with
           | seg :: rest => String c seg :: rest
           | [] => [String c EmptyString]
           end
  end.

(** [s.rfind(c)] for a one-character needle: index of the last occurrence,
    or -1. *)
Fixpoint rfind (s : string) (c : ascii) : Z :=
  match s with
  | EmptyString => -1
  | String d s' =>
      let r := rfind s' c in
      if 0 <=? r then r + 1 else if Ascii.eqb d c then 0 else -1
  end.

(** [s[i:]] for [0 <= i]. *)
Fixpoint slice_from (i : nat) (s : string) : string :=
  match i, s with
  | O, _ => s
  | S _, EmptyString => EmptyString
  | S i', String _ s' => slice_from i' s'
  end.

(** [x in xs] for a collection of strings. *)
Definition contains (xs : list string) (x : string) : bool :=
  existsb (String.eqb x) xs.

(** [sep.join(parts)] with the empty string as [sep]. *)
Definition join_empty (parts : list string) : string :=
  fold_right String.append EmptyString parts.

(** The line feed that ends a line read from a text file. *)
Definition LF : string := String (ascii_of_nat 10) EmptyString.

(** [len(xs)] *)
Definition len {A} (xs : list A) : Z := Z.of_nat (length xs).

End PyStr.

(** ** posixpath *)

Module PosixPath.

Definition sep : ascii := "/"%char.
Definition sep_str : string := String sep EmptyString.

(** [os.path.join(a, b)]:
    [b] if it starts with the separator; [a + b] if [a] is empty or ends
    with the separator; [a + sep + b] otherwise. *)
Definition join (a b : string) : string :=
  if PyStr.startswith b sep_str then b
  else if String.eqb a EmptyString || PyStr.endswith a sep_str then a +:+ b
  else a +:+ sep_str +:+ b.

(** [os.path.basename(p)]: [i = p.rfind(sep) + 1; return p[i:]]. *)
Definition basename (p : string) : string :=
  let i := PyStr.rfind p sep + 1 in
  PyStr.slice_from (Z.to_nat i) p.

End PosixPath.

(** ** Module-level constants of main.py *)

Definition MAX_LINES : Z := 1000.
Definition MAX_BYTES : Z := 100 * 1024.

(** The two sets are only iterated by [any] and queried by [in], so their
    iteration order is irrelevant; they are listed as written. *)
Definition EXCLUDED_EXTENSIONS : list string :=
  [".pyc"; ".tar"; ".7z"; ".zip"; ".mp4"; ".mp3"; ".pdf"; ".jpg"; ".png";
   "tar.lz"].
Definition EXCLUDED_FILES : list string :=
  ["license"; "license.md"; "license.txt"; ".gitignore"].
Definition MAX_DEPTH : Z := 2.

(** ** is_ignored and get_depth *)

(** [is_ignored(file_path, ignored_patterns)] *)
Definition is_ignored (file_path : string) (ignored_patterns : list string)
  : bool :=
  if existsb (fun ext => PyStr.endswith file_path (PyStr.lower ext))
             EXCLUDED_EXTENSIONS
  then true
  else if PyStr.contains EXCLUDED_FILES
            (PyStr.lower (PosixPath.basename file_path))
  then true
  else existsb
         (fun pattern =>
            PyStr.startswith file_path pattern ||
            PyStr.contains (PyStr.split PosixPath.sep file_path) pattern)
         ignored_patterns.

(** [get_depth(relative_path)] *)
Definition get_depth (relative_path : string) : Z :=
  PyStr.len (PyStr.split PosixPath.sep relative_path).

(** ** The file system seen by the collector *)

(** Exceptions raised by the file-system calls; [str(e)] is the message. *)
Inductive exn :=
| PermissionError (msg : string)
| UnicodeDecodeError (msg : string)
| IsADirectoryError (msg : string)
| OSError (msg : string).

Definition str_exn (e : exn) : string :=
  match e with
  | PermissionError m | UnicodeDecodeError m
  | IsADirectoryError m | OSError m => m
  end.

(** A regular file: what [os.path.getsize] answers and what opening it in
    text mode and reading its lines answers.  Either call can raise. *)
Record file := File {
  getsize : exn + Z;
  readlines : exn + list string
}.

(** A directory as [os.walk] lists it: the non-directory entries and the
    sub-directories, each in listing order. *)
#[warnings="-register-all"]
Inductive dir :=
| Dir (files : list (string * file)) (subdirs : list (string * dir)).

Definition dir_files (d : dir) : list (string * file) :=
  match d with Dir fs _ => fs end.
Definition dir_subdirs (d : dir) : list (string * dir) :=
  match d with Dir _ ds => ds end.

(** [name in names] and [names.remove(name)] on a listing that carries a
    payload with every name. *)
Definition has_name {A} (name : string) (l : list (string * A)) : bool :=
  existsb (fun e => String.eqb (fst e) name) l.

Fixpoint remove_name {A} (name : string) (l : list (string * A))
  : list (string * A) :=
  match l with
  | [] => []
  | e :: l' => if String.eqb (fst e) name then l' else e :: remove_name name l'
  end.

(** ** load_gitignore *)

(** The list comprehension of [load_gitignore] over the lines of the file. *)
Definition gitignore_patterns (lines : list string) : list string :=
  List.map PyStr.strip
    (List.filter
       (fun line => negb (String.eqb (PyStr.strip line) EmptyString) &&
                    negb (PyStr.startswith line "#"))
       lines).

(** [load_gitignore(root_path)], on the directory found at [root_path].
    [os.path.exists] holds for a file or a directory of that name; opening a
    directory raises. *)
Definition load_gitignore (root : dir) : exn + list string :=
  match List.find (fun e => String.eqb (fst e) ".gitignore") (dir_files root)
  with
  | Some (_, f) =>
      match readlines f with
      | inl e => inl e
      | inr lines => inr (gitignore_patterns lines)
      end
  | None =>
      if has_name ".gitignore" (dir_subdirs root)
      then inl (IsADirectoryError "Is a directory")
      else inr []
  end.

(** ** generate_file_tree_and_content *)

(** Observable effects of one run, in the order they happen. *)
Inductive event :=
| EvGetsize (file_path : string)
| EvRead (file_path : string)
| EvLogInfo (msg : string)
| EvLogError (msg : string).

Record state := State {
  repo_data : gmap string string;
  trace : list event
}.

Definition emit (e : event) (st : state) : state :=
  State (repo_data st) (trace st ++ [e]).

Definition store (k v : string) (st : state) : state :=
  State (<[k := v]> (repo_data st)) (trace st).

(** Body of the [for file_name in files] loop for one file. *)
Definition process_file (ignored_patterns : list string)
    (root relative_path : string) (st : state) (entry : string * file)
  : state :=
  let '(file_name, f) := entry in
  let file_path := PosixPath.join root file_name in
  let relative_file_path := PosixPath.join relative_path file_name in
  if is_ignored relative_file_path ignored_patterns then st
  else
    let st := emit (EvGetsize file_path) st in
    match getsize f with
    | inl e =>
        emit (EvLogError ("Error reading file " +:+ relative_file_path +:+
                          ": " +:+ str_exn e)) st
    | inr size =>
        if MAX_BYTES <? size
        then emit (EvLogInfo ("Skipping large file: " +:+ relative_file_path))
                  st
        else
          let st := emit (EvRead file_path) st in
          match readlines f with
          | inl e =>
              emit (EvLogError ("Error reading file " +:+ relative_file_path
                                +:+ ": " +:+ str_exn e)) st
          | inr lines =>
              if MAX_LINES <? PyStr.len lines
              then emit (EvLogInfo ("Skipping file with too many lines: " +:+
                                    relative_file_path)) st
              else store relative_file_path (PyStr.join_empty lines) st
          end
    end.

(** What remains of the traversal below one listed sub-directory, given the
    [root] that [os.walk] yields for it and its path relative to the
    repository. *)
Definition walker : Type := string -> string -> state -> state.

(** [os.walk] resumes, after the loop body, with the names left in [dirs]. *)
Definition descend (root relative_path : string)
    (dirs : list (string * walker)) (st : state) : state :=
  fold_left
    (fun st d => snd d (PosixPath.join root (fst d))
                       (PosixPath.join relative_path (fst d)) st)
    dirs st.

(** The loop of [generate_file_tree_and_content] over [os.walk(repo_path)],
    top-down.  [relative_path] is [os.path.relpath(root, repo_path)] with
    "." replaced by the empty string: empty at the repository itself and
    [join(relative_path, d)] for a listed sub-directory [d]; the latter is
    also [os.path.relpath(os.path.join(root, d), repo_path)], on which the
    sub-directories are filtered.  After [continue] the names left in [dirs]
    are still walked: only the removal of [.git] has happened. *)
Fixpoint walk (ignored_patterns : list string) (d : dir) : walker :=
  fun root relative_path st =>
    match d with
    | Dir files subdirs =>
        let dirs :=
          List.map (fun e => (fst e, walk ignored_patterns (snd e))) subdirs in
        let dirs :=
          if has_name ".git" dirs then remove_name ".git" dirs else dirs in
        if MAX_DEPTH <=? get_depth relative_path
        then descend root relative_path dirs st
        else
          let dirs :=
            List.filter
              (fun e => negb (is_ignored (PosixPath.join relative_path (fst e))
                                         ignored_patterns))
              dirs in
          let st :=
            fold_left (process_file ignored_patterns root relative_path)
                      files st in
          descend root relative_path dirs st
    end.

Definition initial_state : state := State ∅ [].

(** [generate_file_tree_and_content(repo_path)], on the directory found at
    [repo_path]; the only exception that escapes is one of
    [load_gitignore]. *)
Definition generate_file_tree_and_content (repo_path : string) (repo : dir)
  : exn + state :=
  match load_gitignore repo with
  | inl e => inl e
  | inr ignored_patterns =>
      inr (walk ignored_patterns repo repo_path EmptyString initial_state)
  end.

(** ** send_message_to_llm, handle_repos and main *)

(** One entry of the message list handed to the chat client: a dictionary
    with the keys [role] and [content]. *)
Record message := Message {
  role : string;
  content : string
}.

(** Observable effects of the top-level run, in the order they happen: the
    events of a traversal and the log records, the calls of the chat client,
    and what is printed. *)
Inductive top_event :=
| TLog (e : event)
| TChat (messages : list message)
| TPrint (text : string).

(** [send_message_to_llm(messages)].  The chat client is external: [chat]
    answers a call with [response.message.content] or with the exception it
    raises.  [messages[-1]] is evaluated inside the [try] block, before the
    first log record, and raises [IndexError] on an empty list. *)
Definition send_message_to_llm (chat : list message -> exn + string)
    (messages : list message) : list top_event * string :=
  match last messages with
  | None =>
      ([TLog (EvLogError ("Error during LLM interaction: " +:+
                          "list index out of range"))],
       "Error: " +:+ "list index out of range")
  | Some m =>
      let sent :=
        [TLog (EvLogInfo ("Sending message to LLM: " +:+ content m));
         TChat messages] in
      match chat messages with
      | inl e =>
          (sent ++ [TLog (EvLogError ("Error during LLM interaction: " +:+
                                      str_exn e))],
           "Error: " +:+ str_exn e)
      | inr text =>
          (sent ++ [TLog (EvLogInfo ("Received response from LLM: " +:+
                                     text))],
           text)
      end
  end.

(** The content of the single user message built for one repository.
    [json_dumps] stands for [json.dumps(repo_data, indent=2)]. *)
Definition prompt (json_dumps : gmap string string -> string)
    (repo : string) (data : gmap string string) : string :=
  "Repository: " +:+ repo +:+ PyStr.LF +:+ PyStr.LF +:+
  "Here is the file tree and contents of the repository:" +:+
  PyStr.LF +:+ PyStr.LF +:+
  json_dumps data +:+
  PyStr.LF +:+ PyStr.LF +:+
  "Please evaluate this repository on the following criteria:" +:+ PyStr.LF +:+
  "- Monetary Potential" +:+ PyStr.LF +:+
  "- Uniqueness" +:+ PyStr.LF +:+
  "- Quality" +:+ PyStr.LF +:+
  "Provide a rating for each criterion and any additional insights you " +:+
  "may have.".

(** What [print(f"Response for {repo}:\n", llm_response)] writes: the two
    arguments separated by a space, then a line feed. *)
Definition response_line (repo llm_response : string) : string :=
  "Response for " +:+ repo +:+ ":" +:+ PyStr.LF +:+ " " +:+ llm_response +:+
  PyStr.LF.

(** Body of the [for repo in repos] loop of [handle_repos], for the
    sub-directory [repo] of [root_path]: its events, and the exception that
    leaves it, if any.  Only [generate_file_tree_and_content] can raise. *)
Definition handle_repo (chat : list message -> exn + string)
    (json_dumps : gmap string string -> string)
    (root_path : string) (entry : string * dir)
  : list top_event * option exn :=
  let repo := fst entry in
  let repo_path := PosixPath.join root_path repo in
  let started := TLog (EvLogInfo ("Processing repository: " +:+ repo)) in
  match generate_file_tree_and_content repo_path (snd entry) with
  | inl e => ([started], Some e)
  | inr st =>
      let messages :=
        [Message "user" (prompt json_dumps repo (repo_data st))] in
      let sent := send_message_to_llm chat messages in
      (started :: List.map TLog (trace st) ++ fst sent ++
         [TPrint (response_line repo (snd sent))],
       None)
  end.

(** The [for repo in repos] loop: it stops at the first exception. *)
Fixpoint handle_repo_list (chat : list message -> exn + string)
    (json_dumps : gmap string string -> string)
    (root_path : string) (repos : list (string * dir))
  : list top_event * option exn :=
  match repos with
  | [] => ([], None)
  | entry :: rest =>
      match handle_repo chat json_dumps root_path entry with
      | (evs, Some e) => (evs, Some e)
      | (evs, None) =>
          let r := handle_repo_list chat json_dumps root_path rest in
          (evs ++ fst r, snd r)
      end
  end.

(** [handle_repos(repo_paths)], each path given with the directory found
    there.  [repos] are the entries of that directory that are directories,
    in listing order. *)
Fixpoint handle_repos (chat : list message -> exn + string)
    (json_dumps : gmap string string -> string)
    (repo_paths : list (string * dir)) : list top_event * option exn :=
  match repo_paths with
  | [] => ([], None)
  | (root_path, d) :: rest =>
      let repos := dir_subdirs d in
      match handle_repo_list chat json_dumps root_path repos with
      | (evs, Some e) => (evs, Some e)
      | (evs, None) =>
          let r := handle_repos chat json_dumps rest in
          (evs ++ fst r, snd r)
      end
  end.

(** [main()], with the directory found at "../". *)
Definition main (chat : list message -> exn + string)
    (json_dumps : gmap string string -> string) (parent : dir)
  : list top_event * option exn :=
  handle_repos chat json_dumps [("../", parent)].

(** * Notions used to state the properties *)

(** Number of occurrences of a character. *)
Fixpoint count_char (c : ascii) (s : string) : nat :=
  match s with
  | EmptyString => O
  | String d s' => (if Ascii.eqb d c then 1 else 0) + count_char c s'
  end.

(** The three rules of [is_ignored], named. *)
Definition extension_rule (file_path : string) : bool :=
  existsb (fun ext => PyStr.endswith file_path (PyStr.lower ext))
          EXCLUDED_EXTENSIONS.

Definition filename_rule (file_path : string) : bool :=
  PyStr.contains EXCLUDED_FILES (PyStr.lower (PosixPath.basename file_path)).

Definition pattern_rule (file_path pattern : string) : bool :=
  PyStr.startswith file_path pattern ||
  PyStr.contains (PyStr.split PosixPath.sep file_path) pattern.

(** The ignore-file rule as the specification words it: going through the
    lines in order, a line that is blank after trimming is dropped, a
    [#]-prefixed line is dropped, and any other line contributes its
    trimmed text. *)
Fixpoint spec_patterns (lines : list string) : list string :=
  match lines with
  | [] => []
  | line :: rest =>
      if String.eqb (PyStr.strip line) EmptyString then spec_patterns rest
      else if PyStr.startswith line "#" then spec_patterns rest
      else PyStr.strip line :: spec_patterns rest
  end.

(** A string made of white space only. *)
Definition all_space (s : string) : Prop :=
  forall c, In c (list_ascii_of_string s) -> PyStr.isspace c = true.

(** A name as a directory listing gives it: not empty, no separator in it. *)
Definition valid_name (n : string) : bool :=
  negb (String.eqb n EmptyString) && Nat.eqb (count_char PosixPath.sep n) 0.

(** No string occurs twice. *)
Fixpoint no_dup (names : list string) : bool :=
  match names with
  | [] => true
  | n :: rest => negb (PyStr.contains rest n) && no_dup rest
  end.

(** A directory tree a file system can hold: in every directory the names
    are valid, no two files and no two sub-directories share a name. *)
Fixpoint wf_dir (d : dir) : bool :=
  match d with
  | Dir files subdirs =>
      forallb (fun e => valid_name (fst e)) files &&
      forallb (fun e => valid_name (fst e)) subdirs &&
      no_dup (List.map fst files) && no_dup (List.map fst subdirs) &&
      forallb (fun e => wf_dir (snd e)) subdirs
  end.

(** Admission of one file of a visited directory: the text recorded for it,
    if it passes the ignore rules, the size ceiling, the read and the line
    ceiling. *)
Definition admission (ignored_patterns : list string) (relative_path : string)
    (entry : string * file) : option string :=
  if is_ignored (PosixPath.join relative_path (fst entry)) ignored_patterns
  then None
  else match getsize (snd entry) with
       | inl _ => None
       | inr size =>
           if MAX_BYTES <? size then None
           else match readlines (snd entry) with
                | inl _ => None
                | inr lines =>
                    if MAX_LINES <? PyStr.len lines then None
                    else Some (PyStr.join_empty lines)
                end
       end.

(** The [try] block of the loop body raises on this file: [getsize] raises,
    or the size is within the ceiling and reading raises. *)
Definition raises (f : file) : bool :=
  match getsize f with
  | inl _ => true
  | inr size =>
      if MAX_BYTES <? size then false
      else match readlines f with inl _ => true | inr _ => false end
  end.

(** The tree without the files on which the [try] block raises. *)
Fixpoint drop_raising (d : dir) : dir :=
  match d with
  | Dir files subdirs =>
      Dir (List.filter (fun e => negb (raises (snd e))) files)
          (List.map (fun e => (fst e, drop_raising (snd e))) subdirs)
  end.

(** The file found by following the segments of a relative path from a
    directory, if there is one. *)
Fixpoint lookup_file (segs : list string) (d : dir) : option file :=
  match segs with
  | [] => None
  | [name] =>
      match List.find (fun e => String.eqb (fst e) name) (dir_files d) with
      | Some (_, f) => Some f
      | None => None
      end
  | name :: segs' =>
      match List.find (fun e => String.eqb (fst e) name) (dir_subdirs d) with
      | Some (_, c) => lookup_file segs' c
      | None => None
      end
  end.

(** The segments of a relative directory path; none for the repository
    itself, whose relative path is the empty string. *)
Definition segs_of (relative_path : string) : list string :=
  if String.eqb relative_path EmptyString then []
  else PyStr.split PosixPath.sep relative_path.

(** Every key of the mapping is at most [MAX_DEPTH] segments deep. *)
Definition keys_shallow (st : state) : Prop :=
  forall k, is_Some (repo_data st !! k) -> get_depth k <= MAX_DEPTH.

(** The file was read without error, within both ceilings, and [text] is
    what was read. *)
Definition read_ok (f : file) (text : string) : Prop :=
  exists size lines,
    getsize f = inr size /\ size <= MAX_BYTES /\
    readlines f = inr lines /\ PyStr.len lines <= MAX_LINES /\
    text = PyStr.join_empty lines.

(** The entry [k -> v] comes from a file of the tree [d], found at relative
    directory path [rel]: the segments of [k] are those of [rel] followed by
    the path of a file of [d] that was read as [v]. *)
Definition recorded_from (rel : string) (d : dir) (k v : string) : Prop :=
  exists q f,
    PyStr.split PosixPath.sep k = segs_of rel ++ q /\
    lookup_file q d = Some f /\ read_ok f v.

(** Two listed sub-directories with the same name whose traversals build the
    same mapping from the same mapping. *)
Definition walkers_agree (x y : string * walker) : Prop :=
  fst x = fst y /\
  forall root rel st st',
    repo_data st = repo_data st' ->
    repo_data (snd x root rel st) = repo_data (snd y root rel st').

(** The entries the traversal records with [MAX_DEPTH = 2], read off the
    tree: an admitted file of the repository directory, under its name, or
    an admitted file of a sub-directory of the repository that is neither
    [.git] nor ignored, under the name of the sub-directory, the separator
    and its own name. *)
Definition snapshot_entry (pats : list string) (repo : dir) (k v : string)
  : Prop :=
  (exists f,
     In (k, f) (dir_files repo) /\
     admission pats EmptyString (k, f) = Some v) \/
  (exists m c n f,
     k = m +:+ PosixPath.sep_str +:+ n /\
     In (m, c) (dir_subdirs repo) /\ m <> ".git" /\
     is_ignored m pats = false /\
     In (n, f) (dir_files c) /\ admission pats m (n, f) = Some v).


(** The printed texts and the calls of the chat client, in order. *)
Definition printed (evs : list top_event) : list string :=
  omap (fun ev => match ev with TPrint text => Some text | _ => None end) evs.

Definition chat_calls (evs : list top_event) : list (list message) :=
  omap (fun ev => match ev with TChat msgs => Some msgs | _ => None end) evs.

(** The repositories [handle_repos] goes through, each with the path it was
    listed under, in order. *)
Definition all_repos (repo_paths : list (string * dir))
  : list (string * (string * dir)) :=
  flat_map (fun rp => List.map (pair (fst rp)) (dir_subdirs (snd rp)))
           repo_paths.

(** The mapping collected for a repository, if its ignore file loads. *)
Definition snapshot_of (root_path : string) (entry : string * dir)
  : option (gmap string string) :=
  match generate_file_tree_and_content
          (PosixPath.join root_path (fst entry)) (snd entry) with
  | inl _ => None
  | inr st => Some (repo_data st)
  end.

(** The sub-directories [os.walk] still has in [dirs] once [.git] is
    removed, and those left after the ignored ones are filtered out, each
    with the traversal of what is below it. *)
Definition listed_dirs (pats : list string) (ds : list (string * dir))
  : list (string * walker) :=
  let dirs := List.map (fun e => (fst e, walk pats (snd e))) ds in
  if has_name ".git" dirs then remove_name ".git" dirs else dirs.

Definition kept_dirs (pats : list string) (rel : string)
    (ds : list (string * dir)) : list (string * walker) :=
  List.filter
    (fun e => negb (is_ignored (PosixPath.join rel (fst e)) pats))
    (listed_dirs pats ds).

(** The message list built for one repository (empty when its ignore file
    does not load, in which case none is built), and the text that comes back
    for it: the answer of the chat client or, when the client raises, the
    error text. *)
Definition repo_messages (json_dumps : gmap string string -> string)
    (root_path : string) (entry : string * dir) : list message :=
  match snapshot_of root_path entry with
  | Some data => [Message "user" (prompt json_dumps (fst entry) data)]
  | None => []
  end.

Definition repo_reply (chat : list message -> exn + string)
    (json_dumps : gmap string string -> string)
    (root_path : string) (entry : string * dir) : string :=
  match chat (repo_messages json_dumps root_path entry) with
  | inl e => "Error: " +:+ str_exn e
  | inr text => text
  end.

(** * Facts about the string primitives *)

Section StringFacts.

Lemma ascii_eqb_true (c d : ascii) : Ascii.eqb c d = true <-> c = d.
Proof. apply Ascii.eqb_eq. Qed.

Lemma string_app_nil_l (t : string) : EmptyString +:+ t = t.
Proof. reflexivity. Qed.

Lemma string_app_cons (c : ascii) (s t : string) :
  String c s +:+ t = String c (s +:+ t).
Proof. reflexivity. Qed.

Lemma string_app_nil_r (s : string) : s +:+ EmptyString = s.
Proof.
  induction s as [|c s IH]; [done |]. by rewrite string_app_cons, IH.
Qed.

Lemma string_app_assoc (s t u : string) : (s +:+ t) +:+ u = s +:+ t +:+ u.
Proof.
  induction s as [|c s IH]; [done |]. by rewrite !string_app_cons, IH.
Qed.

Lemma startswith_spec (s p : string) :
  PyStr.startswith s p = true <-> exists t, s = p +:+ t.
Proof.
  revert s. induction p as [|c p IH]; intros s; simpl.
  - split; [intros _; by exists s | done].
  - destruct s as [|d s]; simpl.
    + split; [done | intros [t Ht]; discriminate].
    + rewrite andb_true_iff, ascii_eqb_true, IH. split.
      * intros [-> [t ->]]. by exists t.
      * intros [t Ht]. rewrite string_app_cons in Ht.
        injection Ht as -> ->. split; [done | by exists t].
Qed.

Lemma startswith_app (p t : string) : PyStr.startswith (p +:+ t) p = true.
Proof. apply startswith_spec. by exists t. Qed.

Lemma endswith_spec (s suffix : string) :
  PyStr.endswith s suffix = true <-> exists p, s = p +:+ suffix.
Proof.
  induction s as [|c s IH].
  - change (String.eqb EmptyString suffix || false = true
            <-> exists p, EmptyString = p +:+ suffix).
    rewrite orb_false_r, String.eqb_eq. split.
    + intros <-. by exists EmptyString.
    + intros [p Hp]. destruct p; [done | discriminate].
  - change (String.eqb (String c s) suffix || PyStr.endswith s suffix = true
            <-> exists p, String c s = p +:+ suffix).
    rewrite orb_true_iff, String.eqb_eq, IH. split.
    + intros [<- | [p ->]]; [by exists EmptyString | by exists (String c p)].
    + intros [[|d p] Hp]; [by left |]. rewrite string_app_cons in Hp.
      injection Hp as -> ->. right. by exists p.
Qed.

Lemma endswith_app (p suffix : string) :
  PyStr.endswith (p +:+ suffix) suffix = true.
Proof. apply endswith_spec. by exists p. Qed.

Lemma contains_In (xs : list string) (x : string) :
  PyStr.contains xs x = true <-> In x xs.
Proof.
  unfold PyStr.contains. rewrite existsb_exists. split.
  - intros [y [Hy Heq]]. apply String.eqb_eq in Heq. by subst.
  - intros Hx. exists x. split; [done | apply String.eqb_refl].
Qed.

Lemma split_not_nil (c : ascii) (s : string) : PyStr.split c s <> [].
Proof.
  destruct s as [|d s]; simpl; [done |].
  destruct (Ascii.eqb d c); [done |]. by destruct (PyStr.split c s).
Qed.

Lemma split_length (c : ascii) (s : string) :
  length (PyStr.split c s) = S (count_char c s).
Proof.
  induction s as [|d s IH]; simpl; [done |].
  destruct (Ascii.eqb d c); simpl; [by rewrite IH |].
  destruct (PyStr.split c s) as [|seg rest] eqn:E; [done | exact IH].
Qed.

Lemma split_no_sep (c : ascii) (s : string) :
  count_char c s = O -> PyStr.split c s = [s].
Proof.
  induction s as [|d s IH]; simpl; [done |].
  destruct (Ascii.eqb d c); [done |]. simpl. intros H.
  by rewrite (IH H).
Qed.

Lemma rfind_split (c : ascii) (s : string) :
  let r := PyStr.rfind s c in
  -1 <= r /\
  (r < 0 -> PyStr.split c s = [s]) /\
  (0 <= r ->
     (2 <= length (PyStr.split c s))%nat /\
     PyStr.slice_from (Z.to_nat (r + 1)) s =
     List.last (PyStr.split c s) EmptyString).
Proof.
  induction s as [|d s IH]; simpl.
  - split; [lia |]. split; [done | lia].
  - destruct IH as (Hlo & Hneg & Hpos).
    destruct (0 <=? PyStr.rfind s c) eqn:Er.
    + apply Z.leb_le in Er. destruct (Hpos Er) as [Hlen Hlast].
      split; [lia |]. split; [lia |]. intros _.
      replace (Z.to_nat (PyStr.rfind s c + 1 + 1))
        with (S (Z.to_nat (PyStr.rfind s c + 1))) by lia.
      simpl PyStr.slice_from. rewrite Hlast.
      destruct (PyStr.split c s) as [|a [|b rest]]; simpl in Hlen; try lia.
      destruct (Ascii.eqb d c); simpl; (split; [lia | done]).
    + apply Z.leb_gt in Er. rewrite (Hneg Er).
      destruct (Ascii.eqb d c); simpl.
      * split; [lia |]. split; [lia |]. intros _. split; [lia | done].
      * split; [lia |]. split; [done | lia].
Qed.

(** [basename] is the final segment of the split path. *)
Lemma basename_last_split (p : string) :
  PosixPath.basename p = List.last (PyStr.split PosixPath.sep p) EmptyString.
Proof.
  unfold PosixPath.basename.
  destruct (rfind_split PosixPath.sep p) as (Hlo & Hneg & Hpos).
  destruct (Z.le_gt_cases 0 (PyStr.rfind p PosixPath.sep)) as [H | H].
  - by destruct (Hpos H).
  - rewrite (Hneg H). replace (PyStr.rfind p PosixPath.sep) with (-1) by lia.
    done.
Qed.

End StringFacts.

(** * The ignore predicate *)

Section IsIgnored.

Lemma is_ignored_rules (P : string) (pats : list string) :
  is_ignored P pats =
  extension_rule P || filename_rule P || existsb (pattern_rule P) pats.
Proof.
  unfold is_ignored, extension_rule, filename_rule.
  destruct (existsb _ EXCLUDED_EXTENSIONS); [done |].
  by destruct (PyStr.contains EXCLUDED_FILES _).
Qed.

Lemma pattern_rule_true (P pat : string) :
  pattern_rule P pat = true <->
  PyStr.startswith P pat = true \/ In pat (PyStr.split PosixPath.sep P).
Proof.
  unfold pattern_rule. by rewrite orb_true_iff, contains_In.
Qed.

(** Every deny-listed extension is already lower case, so [ext.lower()]
    leaves it as it is. *)
Lemma excluded_extensions_lower (ext : string) :
  In ext EXCLUDED_EXTENSIONS -> PyStr.lower ext = ext.
Proof.
  unfold EXCLUDED_EXTENSIONS. simpl. intros H.
  repeat (destruct H as [<- | H]; [reflexivity |]). destruct H.
Qed.

(** A path that ends, as written, in a deny-listed entry is ignored. *)
Lemma is_ignored_suffix (P ext : string) (pats : list string) :
  In ext EXCLUDED_EXTENSIONS -> PyStr.endswith P ext = true ->
  is_ignored P pats = true.
Proof.
  intros Hin Hend. rewrite is_ignored_rules.
  assert (extension_rule P = true) as ->; [| done].
  apply existsb_exists. exists ext. split; [done |].
  by rewrite (excluded_extensions_lower _ Hin).
Qed.

End IsIgnored.

(** * The ignore file *)

Section LoadGitignore.

Lemma gitignore_patterns_spec (lines : list string) :
  gitignore_patterns lines = spec_patterns lines.
Proof.
  unfold gitignore_patterns.
  induction lines as [|line rest IH]; [done |].
  cbn [List.filter spec_patterns].
  destruct (String.eqb (PyStr.strip line) EmptyString); cbn [negb andb];
    [exact IH |].
  destruct (PyStr.startswith line "#"); cbn [negb andb]; [exact IH |].
  cbn [List.map]. by rewrite IH.
Qed.

Lemma has_name_find_none {A} (name : string) (l : list (string * A)) :
  has_name name l = false ->
  List.find (fun e => String.eqb (fst e) name) l = None.
Proof.
  unfold has_name. induction l as [|e l IH]; simpl; [done |].
  destruct (String.eqb (fst e) name); [done | exact IH].
Qed.

Lemma lstrip_all_space (ws rest : string) :
  all_space ws -> PyStr.lstrip (ws +:+ rest) = PyStr.lstrip rest.
Proof.
  induction ws as [|c ws IH]; intros Hws; [done |].
  rewrite string_app_cons. simpl.
  rewrite (Hws c) by (simpl; auto).
  apply IH. intros d Hd. apply Hws. simpl. auto.
Qed.

Lemma rstrip_keeps_head (c : ascii) (s : string) :
  PyStr.isspace c = false ->
  exists r, PyStr.rstrip (String c s) = String c r.
Proof.
  intros Hc. simpl. destruct (PyStr.rstrip s) as [|d r].
  - rewrite Hc. by exists EmptyString.
  - by exists (String d r).
Qed.

(** A line made of white space, then [#], is kept, and its pattern starts
    with [#]. *)
Lemma indented_hash_kept (ws rest : string) :
  ws <> EmptyString -> all_space ws ->
  let line := ws +:+ String "#" rest in
  PyStr.startswith line "#" = false /\
  exists r, PyStr.strip line = String "#" r.
Proof.
  intros Hne Hws line. split.
  - destruct ws as [|c ws]; [done |]. unfold line.
    rewrite string_app_cons. simpl.
    destruct (Ascii.eqb c "#") eqn:E; [| done].
    apply Ascii.eqb_eq in E. subst c.
    specialize (Hws "#"%char). simpl in Hws.
    discriminate Hws. by left.
  - unfold PyStr.strip, line. rewrite lstrip_all_space by done.
    change (PyStr.lstrip (String "#" rest)) with (String "#" rest).
    by apply rstrip_keeps_head.
Qed.

End LoadGitignore.

(** * Paths and depth *)

Section PathFacts.

Lemma count_char_app (c : ascii) (s t : string) :
  count_char c (s +:+ t) = (count_char c s + count_char c t)%nat.
Proof.
  induction s as [|d s IH]; [done |].
  rewrite string_app_cons. simpl. rewrite IH. lia.
Qed.

Lemma get_depth_count (s : string) :
  get_depth s = 1 + Z.of_nat (count_char PosixPath.sep s).
Proof. unfold get_depth, PyStr.len. rewrite split_length. lia. Qed.

Lemma startswith_sep_count (b : string) :
  PyStr.startswith b PosixPath.sep_str = true ->
  (1 <= count_char PosixPath.sep b)%nat.
Proof.
  intros H. apply startswith_spec in H as [t ->].
  rewrite count_char_app. simpl. lia.
Qed.

Lemma endswith_sep_count (n : string) :
  PyStr.endswith n PosixPath.sep_str = true ->
  (1 <= count_char PosixPath.sep n)%nat.
Proof.
  intros H. apply endswith_spec in H as [p ->].
  rewrite count_char_app. simpl. lia.
Qed.

(** The three shapes of [join a b]. *)
Lemma join_cases (a b : string) :
  (PyStr.startswith b PosixPath.sep_str = true /\ PosixPath.join a b = b) \/
  PosixPath.join a b = a +:+ b \/
  PosixPath.join a b = a +:+ PosixPath.sep_str +:+ b.
Proof.
  unfold PosixPath.join.
  destruct (PyStr.startswith b PosixPath.sep_str); [by left |].
  destruct (_ || _); [by right; left | by right; right].
Qed.

(** Joining a name without separator adds at most one level. *)
Lemma get_depth_join_le (a b : string) :
  count_char PosixPath.sep b = O ->
  get_depth (PosixPath.join a b) <= get_depth a + 1.
Proof.
  intros Hb. rewrite !get_depth_count.
  destruct (join_cases a b) as [[Hs _] | [-> | ->]].
  - apply startswith_sep_count in Hs. lia.
  - rewrite count_char_app. lia.
  - rewrite !count_char_app. simpl. lia.
Qed.

(** Below a directory at or past the ceiling, every directory is at or
    past the ceiling. *)
Lemma get_depth_join_deep (a b : string) :
  MAX_DEPTH <= get_depth a -> MAX_DEPTH <= get_depth (PosixPath.join a b).
Proof.
  rewrite !get_depth_count. unfold MAX_DEPTH. intros Ha.
  destruct (join_cases a b) as [[Hs ->] | [-> | ->]].
  - apply startswith_sep_count in Hs. lia.
  - rewrite count_char_app. lia.
  - rewrite !count_char_app. lia.
Qed.

Lemma valid_name_spec (n : string) :
  valid_name n = true <->
  n <> EmptyString /\ count_char PosixPath.sep n = O.
Proof.
  unfold valid_name.
  rewrite andb_true_iff, negb_true_iff, String.eqb_neq, Nat.eqb_eq. done.
Qed.

Lemma split_app_sep (c : ascii) (a b : string) :
  PyStr.split c (a +:+ String c b) = PyStr.split c a ++ PyStr.split c b.
Proof.
  induction a as [|d a IH].
  - rewrite string_app_nil_l. simpl. by rewrite Ascii.eqb_refl.
  - rewrite string_app_cons. simpl. rewrite IH.
    destruct (Ascii.eqb d c); [done |].
    pose proof (split_not_nil c a).
    by destruct (PyStr.split c a).
Qed.

Lemma endswith_sep_app (a n : string) :
  n <> EmptyString ->
  PyStr.endswith (a +:+ n) PosixPath.sep_str =
  PyStr.endswith n PosixPath.sep_str.
Proof.
  intros Hn. induction a as [|d a IH]; [done |].
  rewrite string_app_cons.
  change (PyStr.endswith (String d (a +:+ n)) PosixPath.sep_str)
    with (String.eqb (String d (a +:+ n)) PosixPath.sep_str
          || PyStr.endswith (a +:+ n) PosixPath.sep_str).
  rewrite IH.
  destruct (String.eqb (String d (a +:+ n)) PosixPath.sep_str) eqn:E;
    [| done].
  apply String.eqb_eq in E. injection E as _ E.
  destruct a; [by rewrite string_app_nil_l in E | discriminate E].
Qed.

(** Joining a valid name to a relative directory path. *)
Lemma join_valid (rel n : string) :
  PyStr.endswith rel PosixPath.sep_str = false ->
  valid_name n = true ->
  PyStr.endswith (PosixPath.join rel n) PosixPath.sep_str = false /\
  PosixPath.join rel n <> EmptyString /\
  PyStr.split PosixPath.sep (PosixPath.join rel n) = segs_of rel ++ [n].
Proof.
  intros Hrel Hn. apply valid_name_spec in Hn as [Hne Hcnt].
  assert (PyStr.endswith n PosixPath.sep_str = false) as Hend.
  { destruct (PyStr.endswith n PosixPath.sep_str) eqn:E; [| done].
    apply endswith_sep_count in E. lia. }
  assert (PyStr.startswith n PosixPath.sep_str = false) as Hstart.
  { destruct (PyStr.startswith n PosixPath.sep_str) eqn:E; [| done].
    apply startswith_sep_count in E. lia. }
  unfold PosixPath.join, segs_of. rewrite Hstart, Hrel, orb_false_r.
  destruct (String.eqb rel EmptyString) eqn:E.
  - apply String.eqb_eq in E. subst rel. rewrite string_app_nil_l.
    split; [done |]. split; [done |]. by apply split_no_sep.
  - split; [| split].
    + rewrite <- string_app_assoc. by rewrite endswith_sep_app.
    + apply String.eqb_neq in E. by destruct rel.
    + unfold PosixPath.sep_str. rewrite string_app_cons, string_app_nil_l.
      rewrite split_app_sep. by rewrite (split_no_sep _ n).
Qed.

End PathFacts.

(** * One file of a visited directory *)

Section ProcessFile.

Variable pats : list string.
Variables root rel : string.

(** The mapping after the loop body, by the admission of the file. *)
Lemma process_file_repo_data (st : state) (entry : string * file) :
  repo_data (process_file pats root rel st entry) =
  match admission pats rel entry with
  | Some text => <[PosixPath.join rel (fst entry) := text]> (repo_data st)
  | None => repo_data st
  end.
Proof.
  destruct entry as [name f]. unfold process_file, admission.
  cbn [fst snd].
  destruct (is_ignored _ pats); [done |].
  destruct (getsize f) as [e | size]; [done |].
  destruct (MAX_BYTES <? size); [done |].
  destruct (readlines f) as [e | lines]; [done |].
  by destruct (MAX_LINES <? PyStr.len lines).
Qed.

(** A file on which the [try] block raises is not admitted. *)
Lemma admission_raises (entry : string * file) :
  raises (snd entry) = true -> admission pats rel entry = None.
Proof.
  unfold raises, admission. destruct (is_ignored _ pats); [done |].
  destruct (getsize (snd entry)) as [e | size]; [done |].
  destruct (MAX_BYTES <? size); [done |].
  by destruct (readlines (snd entry)).
Qed.

(** The events of the loop body come after those already recorded. *)
Lemma process_file_trace (st : state) (entry : string * file) :
  exists evs, trace (process_file pats root rel st entry) = trace st ++ evs.
Proof.
  destruct entry as [name f]. unfold process_file.
  destruct (is_ignored _ pats); [exists []; by rewrite app_nil_r |].
  destruct (getsize f) as [e | size];
    [by eexists [_; _]; cbn; rewrite <- app_assoc |].
  destruct (MAX_BYTES <? size);
    [by eexists [_; _]; cbn; rewrite <- app_assoc |].
  destruct (readlines f) as [e | lines];
    [by eexists [_; _; _]; cbn; rewrite <- !app_assoc |].
  destruct (MAX_LINES <? PyStr.len lines);
    [by eexists [_; _; _]; cbn; rewrite <- !app_assoc |].
  by eexists [_; _]; cbn; rewrite <- !app_assoc.
Qed.

End ProcessFile.

(** * The traversal *)

Section WalkFacts.

Variable pats : list string.

(** Induction on directory trees, with the hypothesis for every listed
    sub-directory. *)
Lemma dir_ind_nested (P : dir -> Prop) :
  (forall fs ds, Forall (fun e => P (snd e)) ds -> P (Dir fs ds)) ->
  forall d, P d.
Proof.
  intros Hstep. fix IH 1. intros [fs ds]. apply Hstep.
  induction ds as [|e ds IHds]; constructor; [apply IH | exact IHds].
Qed.

Lemma walk_unfold (fs : list (string * file)) (ds : list (string * dir))
    (root rel : string) (st : state) :
  walk pats (Dir fs ds) root rel st =
  let dirs := List.map (fun e => (fst e, walk pats (snd e))) ds in
  let dirs :=
    if has_name ".git" dirs then remove_name ".git" dirs else dirs in
  if MAX_DEPTH <=? get_depth rel then descend root rel dirs st
  else descend root rel
         (List.filter
            (fun e => negb (is_ignored (PosixPath.join rel (fst e)) pats))
            dirs)
         (fold_left (process_file pats root rel) fs st).
Proof. reflexivity. Qed.

Lemma In_remove_name {A} (name : string) (l : list (string * A))
    (x : string * A) :
  In x (remove_name name l) -> In x l.
Proof.
  induction l as [|e l IH]; simpl; [done |].
  destruct (String.eqb (fst e) name); [by right |].
  intros [-> | H]; [by left | right; by apply IH].
Qed.

Lemma fold_left_inv {A} (Q : state -> Prop) (f : state -> A -> state)
    (l : list A) (st : state) :
  Q st -> (forall x st', In x l -> Q st' -> Q (f st' x)) ->
  Q (fold_left f l st).
Proof.
  revert st. induction l as [|x l IH]; intros st Hst Hf; [done |].
  simpl. apply IH.
  - apply Hf; [by left | done].
  - intros y st' Hy. apply Hf. by right.
Qed.

(** One step of the traversal preserves [Q] when the loop body does, for the
    files of a directory under the depth ceiling, and when the traversal of
    every listed sub-directory does. *)
Lemma walk_inv (Q : state -> Prop) (fs : list (string * file))
    (ds : list (string * dir)) (root rel : string) (st : state) :
  Q st ->
  (get_depth rel < MAX_DEPTH ->
   forall e st', In e fs -> Q st' -> Q (process_file pats root rel st' e)) ->
  (forall e st', In e ds -> Q st' ->
     Q (walk pats (snd e) (PosixPath.join root (fst e))
             (PosixPath.join rel (fst e)) st')) ->
  Q (walk pats (Dir fs ds) root rel st).
Proof.
  intros Hst Hfiles Hdirs. rewrite walk_unfold. cbv zeta.
  set (dirs := List.map (fun e => (fst e, walk pats (snd e))) ds).
  assert (forall x st', In x dirs -> Q st' ->
            Q (snd x (PosixPath.join root (fst x))
                     (PosixPath.join rel (fst x)) st')) as Hstep.
  { intros x st' Hx Hq. apply in_map_iff in Hx as [e [<- He]].
    by apply Hdirs. }
  assert (forall x,
            In x (if has_name ".git" dirs then remove_name ".git" dirs
                  else dirs) -> In x dirs) as Hgit.
  { intros x. destruct (has_name ".git" dirs); [apply In_remove_name | done]. }
  unfold descend.
  destruct (MAX_DEPTH <=? get_depth rel) eqn:Hdepth.
  - apply (fold_left_inv Q); [done |]. intros x st' Hx. apply Hstep. auto.
  - apply Z.leb_gt in Hdepth. apply (fold_left_inv Q).
    + apply (fold_left_inv Q); [done |]. intros e st' He. by apply Hfiles.
    + intros x st' Hx. apply filter_In in Hx as [Hx _]. apply Hstep. auto.
Qed.

(** A directory at or past the depth ceiling, with all that is below it,
    leaves the mapping as it is. *)
Lemma walk_deep (d : dir) :
  forall root rel st,
    MAX_DEPTH <= get_depth rel ->
    repo_data (walk pats d root rel st) = repo_data st.
Proof.
  induction d as [fs ds IH] using dir_ind_nested.
  intros root rel st Hdeep.
  apply (walk_inv (fun st' => repo_data st' = repo_data st)); [done | lia |].
  intros e st' He Hq. rewrite Forall_forall in IH.
  rewrite (IH e); [done | by apply list_elem_of_In |].
  by apply get_depth_join_deep.
Qed.

Lemma wf_dir_inv (fs : list (string * file)) (ds : list (string * dir)) :
  wf_dir (Dir fs ds) = true ->
  (forall e, In e fs -> valid_name (fst e) = true) /\
  (forall e, In e ds -> valid_name (fst e) = true) /\
  no_dup (List.map fst fs) = true /\
  no_dup (List.map fst ds) = true /\
  (forall e, In e ds -> wf_dir (snd e) = true).
Proof.
  intros H.
  change (forallb (fun e => valid_name (fst e)) fs &&
          forallb (fun e => valid_name (fst e)) ds &&
          no_dup (List.map fst fs) && no_dup (List.map fst ds) &&
          forallb (fun e => wf_dir (snd e)) ds = true) in H.
  rewrite !andb_true_iff, !forallb_forall in H.
  destruct H as [[[[H1 H2] H3] H4] H5]. done.
Qed.

Lemma walk_keys_shallow (d : dir) :
  wf_dir d = true ->
  forall root rel st,
    keys_shallow st -> keys_shallow (walk pats d root rel st).
Proof.
  induction d as [fs ds IH] using dir_ind_nested.
  intros Hwf root rel st Hst.
  apply wf_dir_inv in Hwf as (Hfs & _ & _ & _ & Hsub).
  apply walk_inv; [done | |].
  - intros Hdepth e st' He Hq k.
    rewrite process_file_repo_data.
    destruct (admission pats rel e) as [text |]; [| apply Hq].
    destruct (decide (PosixPath.join rel (fst e) = k)) as [<- | Hne].
    + intros _. apply Hfs, valid_name_spec in He as [_ Hcnt].
      pose proof (get_depth_join_le rel (fst e) Hcnt). lia.
    + rewrite lookup_insert_ne by done. apply Hq.
  - intros e st' He Hq. rewrite Forall_forall in IH.
    apply IH; [by apply list_elem_of_In | by apply Hsub | done].
Qed.

(** ** Files on which the [try] block raises leave no mark *)

Lemma agree_has_name (name : string) (l l' : list (string * walker)) :
  Forall2 walkers_agree l l' -> has_name name l = has_name name l'.
Proof.
  unfold has_name. induction 1 as [|x y l l' [Hn _] _ IH]; [done |].
  simpl. by rewrite Hn, IH.
Qed.

Lemma agree_remove_name (name : string) (l l' : list (string * walker)) :
  Forall2 walkers_agree l l' ->
  Forall2 walkers_agree (remove_name name l) (remove_name name l').
Proof.
  induction 1 as [|x y l l' Hxy Hl IH]; [constructor |].
  simpl. destruct Hxy as [Hn Hw]. rewrite <- Hn.
  destruct (String.eqb (fst x) name); [done |].
  constructor; [by split | done].
Qed.

Lemma agree_filter (p : string -> bool) (l l' : list (string * walker)) :
  Forall2 walkers_agree l l' ->
  Forall2 walkers_agree (List.filter (fun e => p (fst e)) l)
                        (List.filter (fun e => p (fst e)) l').
Proof.
  induction 1 as [|x y l l' Hxy Hl IH]; [constructor |].
  simpl. destruct Hxy as [Hn Hw]. rewrite <- Hn.
  destruct (p (fst x)); [| done]. constructor; [by split | done].
Qed.

Lemma agree_descend (root rel : string) (l l' : list (string * walker)) :
  Forall2 walkers_agree l l' ->
  forall st st',
    repo_data st = repo_data st' ->
    repo_data (descend root rel l st) = repo_data (descend root rel l' st').
Proof.
  unfold descend. induction 1 as [|x y l l' [Hn Hw] Hl IH]; [done |].
  intros st st' Hst. simpl. apply IH. unfold walker in *.
  rewrite <- Hn. by apply Hw.
Qed.

Lemma files_drop_raising (root rel : string) (fs : list (string * file)) :
  forall st st',
    repo_data st = repo_data st' ->
    repo_data (fold_left (process_file pats root rel) fs st) =
    repo_data (fold_left (process_file pats root rel)
                 (List.filter (fun e => negb (raises (snd e))) fs) st').
Proof.
  induction fs as [|e fs IH]; intros st st' Hst; [done |].
  simpl. destruct (raises (snd e)) eqn:Hr; simpl.
  - apply IH. rewrite process_file_repo_data.
    by rewrite (admission_raises pats rel e Hr).
  - apply IH. rewrite !process_file_repo_data. by rewrite Hst.
Qed.

Lemma drop_raising_unfold (fs : list (string * file))
    (ds : list (string * dir)) :
  drop_raising (Dir fs ds) =
  Dir (List.filter (fun e => negb (raises (snd e))) fs)
      (List.map (fun e => (fst e, drop_raising (snd e))) ds).
Proof. reflexivity. Qed.

(** The traversal builds the same mapping on the tree and on the tree
    without the files on which the [try] block raises. *)
Lemma walk_drop_raising (d : dir) :
  forall root rel st st',
    repo_data st = repo_data st' ->
    repo_data (walk pats d root rel st) =
    repo_data (walk pats (drop_raising d) root rel st').
Proof.
  induction d as [fs ds IH] using dir_ind_nested.
  intros root rel st st' Hst.
  rewrite drop_raising_unfold, !walk_unfold. cbv zeta.
  assert (Forall2 walkers_agree
            (List.map (fun e => (fst e, walk pats (snd e))) ds)
            (List.map (fun e => (fst e, walk pats (snd e)))
               (List.map (fun e => (fst e, drop_raising (snd e))) ds)))
    as Hagree.
  { induction IH as [|e ds He _ IHds]; [constructor |].
    simpl. constructor; [| exact IHds]. split; [done | exact He]. }
  rewrite <- (agree_has_name ".git" _ _ Hagree).
  assert (Forall2 walkers_agree
            (if has_name ".git"
                  (List.map (fun e => (fst e, walk pats (snd e))) ds)
             then remove_name ".git"
                    (List.map (fun e => (fst e, walk pats (snd e))) ds)
             else List.map (fun e => (fst e, walk pats (snd e))) ds)
            (if has_name ".git"
                  (List.map (fun e => (fst e, walk pats (snd e))) ds)
             then remove_name ".git"
                    (List.map (fun e => (fst e, walk pats (snd e)))
                       (List.map (fun e => (fst e, drop_raising (snd e)))
                          ds))
             else List.map (fun e => (fst e, walk pats (snd e)))
                    (List.map (fun e => (fst e, drop_raising (snd e))) ds)))
    as Hgit.
  { destruct (has_name ".git" _); [by apply agree_remove_name | done]. }
  destruct (MAX_DEPTH <=? get_depth rel).
  - by apply agree_descend.
  - apply agree_descend.
    + apply (agree_filter
               (fun n => negb (is_ignored (PosixPath.join rel n) pats))).
      exact Hgit.
    + by apply files_drop_raising.
Qed.

(** ** Every entry of the mapping comes from a file that was read *)

Lemma admission_Some (rel : string) (e : string * file) (text : string) :
  admission pats rel e = Some text ->
  is_ignored (PosixPath.join rel (fst e)) pats = false /\
  read_ok (snd e) text.
Proof.
  unfold admission, read_ok.
  destruct (is_ignored _ pats); [done |].
  destruct (getsize (snd e)) as [x | size]; [done |].
  destruct (MAX_BYTES <? size) eqn:Hsize; [done |].
  destruct (readlines (snd e)) as [x | lines]; [done |].
  destruct (MAX_LINES <? PyStr.len lines) eqn:Hlines; [done |].
  intros [= <-]. split; [done |]. exists size, lines.
  apply Z.ltb_ge in Hsize, Hlines. done.
Qed.

Lemma read_ok_not_raises (f : file) (text : string) :
  read_ok f text -> raises f = false.
Proof.
  intros (size & lines & Hs & Hle & Hr & _). unfold raises.
  rewrite Hs, Hr. apply Z.ltb_ge in Hle. by rewrite Hle.
Qed.

Lemma find_no_dup {A} (l : list (string * A)) (e : string * A) :
  no_dup (List.map fst l) = true -> In e l ->
  List.find (fun x => String.eqb (fst x) (fst e)) l = Some e.
Proof.
  induction l as [|x l IH]; [done |]. simpl.
  rewrite andb_true_iff, negb_true_iff. intros [Hfresh Hnd] Hin.
  destruct (String.eqb (fst x) (fst e)) eqn:E.
  - destruct Hin as [-> | Hin]; [done |]. exfalso.
    apply String.eqb_eq in E.
    assert (PyStr.contains (List.map fst l) (fst x) = true) as Hc.
    { apply contains_In. rewrite E. by apply in_map. }
    congruence.
  - destruct Hin as [-> | Hin]; [| by apply IH].
    by rewrite String.eqb_refl in E.
Qed.

Lemma walk_sound (d : dir) :
  wf_dir d = true ->
  forall root rel st k v,
    PyStr.endswith rel PosixPath.sep_str = false ->
    repo_data (walk pats d root rel st) !! k = Some v ->
    repo_data st !! k = Some v \/ recorded_from rel d k v.
Proof.
  induction d as [fs ds IH] using dir_ind_nested.
  intros Hwf root rel st k v Hrel. revert v.
  apply wf_dir_inv in Hwf as (Hfs & Hds & Hndf & Hndd & Hsub).
  apply (walk_inv
           (fun st' => forall v, repo_data st' !! k = Some v ->
              repo_data st !! k = Some v \/
              recorded_from rel (Dir fs ds) k v)).
  - by left.
  - intros _ e st' He Hq v. rewrite process_file_repo_data.
    destruct (admission pats rel e) as [text |] eqn:Hadm; [| apply Hq].
    destruct (decide (PosixPath.join rel (fst e) = k)) as [<- | Hne];
      [| rewrite lookup_insert_ne by done; apply Hq].
    rewrite lookup_insert_eq. intros [= <-]. right.
    apply admission_Some in Hadm as [_ Hok].
    destruct (join_valid rel (fst e) Hrel (Hfs e He)) as (_ & _ & Hsplit).
    exists [fst e], (snd e). split; [done |]. split; [| done].
    cbn [lookup_file dir_files]. rewrite (find_no_dup fs e Hndf He).
    by destruct e.
  - intros e st' He Hq v Hv. rewrite Forall_forall in IH.
    destruct (join_valid rel (fst e) Hrel (Hds e He))
      as (Hrel' & Hne & Hsplit).
    destruct (IH e (proj2 (list_elem_of_In _ _) He) (Hsub e He)
                _ _ _ _ _ Hrel' Hv)
      as [Hold | (q & f & Hk & Hlook & Hok)]; [by apply Hq |].
    right. exists (fst e :: q), f. split; [| split; [| done]].
    + rewrite Hk. unfold segs_of at 1.
      apply String.eqb_neq in Hne. rewrite Hne, Hsplit.
      by rewrite <- app_assoc.
    + destruct q as [|n q]; [done |].
      cbn [lookup_file dir_subdirs]. rewrite (find_no_dup ds e Hndd He).
      by destruct e.
Qed.

End WalkFacts.

(** * Properties of the specification *)

(** C1 (the code departs from the claim).  The extension rule compares the
    path as written with the deny-list: [is_ignored] lower-cases the
    deny-list entry, not the path.  The path "A.PYC" has the lower-cased
    suffix ".pyc", which is deny-listed, and yet it is not ignored. *)
Theorem extension_rule_is_case_sensitive :
  In ".pyc" EXCLUDED_EXTENSIONS /\
  PyStr.endswith (PyStr.lower "A.PYC") ".pyc" = true /\
  is_ignored "A.PYC" [] = false /\
  is_ignored "a.pyc" [] = true.
Proof. repeat split; [simpl; auto | reflexivity..]. Qed.

(** C2.  With [MAX_DEPTH = 2], on every tree a file system can hold, no
    key of the mapping has more than [MAX_DEPTH] segments, whatever the
    ignore patterns (second and third part; [a/b/c.txt] has three); and a
    directory whose relative depth is at least [MAX_DEPTH] adds nothing to
    the mapping, nor does anything below it (last part). *)
Theorem depth_pruning (repo_path : string) (repo : dir) :
  wf_dir repo = true ->
  MAX_DEPTH = 2 /\
  (forall pats k,
     MAX_DEPTH < get_depth k ->
     repo_data (walk pats repo repo_path EmptyString initial_state) !! k
       = None) /\
  (forall st k,
     generate_file_tree_and_content repo_path repo = inr st ->
     MAX_DEPTH < get_depth k -> repo_data st !! k = None) /\
  (forall pats d root rel st,
     MAX_DEPTH <= get_depth rel ->
     repo_data (walk pats d root rel st) = repo_data st).
Proof.
  intros Hwf.
  assert (forall pats k,
            MAX_DEPTH < get_depth k ->
            repo_data (walk pats repo repo_path EmptyString initial_state)
              !! k = None) as Hkeys.
  { intros pats k Hk.
    destruct (repo_data (walk pats repo repo_path EmptyString initial_state)
                !! k) as [v |] eqn:E; [| done].
    exfalso.
    assert (keys_shallow
              (walk pats repo repo_path EmptyString initial_state)) as Hs.
    { apply walk_keys_shallow; [done |]. intros k' [v' Hv'].
      cbn in Hv'. by rewrite lookup_empty in Hv'. }
    specialize (Hs k). rewrite E in Hs.
    assert (get_depth k <= MAX_DEPTH) by (apply Hs; by eexists). lia. }
  split; [reflexivity |]. split; [exact Hkeys |]. split.
  - intros st k Hgen Hk. unfold generate_file_tree_and_content in Hgen.
    destruct (load_gitignore repo) as [e | pats]; [done |].
    injection Hgen as <-. by apply Hkeys.
  - intros pats d root rel st Hdeep. by apply walk_deep.
Qed.

(** The file [a/b/c.txt] is not recorded. *)
Lemma depth_pruning_witness :
  let text := File (inr 6) (inr ["hello" +:+ PyStr.LF]) in
  let repo :=
    Dir [("README.md", text)]
        [("a", Dir [("x.txt", text)] [("b", Dir [("c.txt", text)] [])])] in
  wf_dir repo = true /\
  forall st,
    generate_file_tree_and_content "repo" repo = inr st ->
    repo_data st !! "a/b/c.txt" = None.
Proof.
  intros text repo. split; [reflexivity |].
  intros st Hgen.
  destruct (depth_pruning "repo" repo eq_refl) as (_ & _ & Hkeys & _).
  apply (Hkeys st "a/b/c.txt" Hgen). reflexivity.
Defined.

(** C3.  For a file that the ignore rules let through, with
    [MAX_BYTES = 102400] and [MAX_LINES = 1000]: a size up to and including
    [MAX_BYTES] passes the size check and, with up to and including
    [MAX_LINES] lines, the file is recorded with its text; a size of
    [MAX_BYTES + 1] or more excludes the file without its content being read;
    [MAX_LINES + 1] lines or more exclude it.  In every case the size is
    asked first: the content is read, if at all, after it. *)
Theorem size_and_line_ceilings
    (pats : list string) (root rel name : string) (f : file) (st : state) :
  is_ignored (PosixPath.join rel name) pats = false ->
  let key := PosixPath.join rel name in
  let path := PosixPath.join root name in
  let st' := process_file pats root rel st (name, f) in
  MAX_BYTES = 102400 /\ MAX_LINES = 1000 /\
  (forall size lines,
     getsize f = inr size -> readlines f = inr lines ->
     size <= MAX_BYTES -> PyStr.len lines <= MAX_LINES ->
     repo_data st' = <[key := PyStr.join_empty lines]> (repo_data st) /\
     trace st' = trace st ++ [EvGetsize path; EvRead path]) /\
  (forall size,
     getsize f = inr size -> MAX_BYTES + 1 <= size ->
     repo_data st' = repo_data st /\
     trace st' = trace st ++
       [EvGetsize path; EvLogInfo ("Skipping large file: " +:+ key)]) /\
  (forall size lines,
     getsize f = inr size -> readlines f = inr lines ->
     size <= MAX_BYTES -> MAX_LINES + 1 <= PyStr.len lines ->
     repo_data st' = repo_data st /\
     trace st' = trace st ++
       [EvGetsize path; EvRead path;
        EvLogInfo ("Skipping file with too many lines: " +:+ key)]) /\
  (exists rest, trace st' = trace st ++ EvGetsize path :: rest).
Proof.
  intros Hign key path st'. subst st' key path. unfold process_file.
  rewrite Hign.
  split; [reflexivity |]. split; [reflexivity |].
  split; [| split; [| split]].
  - intros size lines -> -> Hsize Hlines.
    apply Z.ltb_ge in Hsize, Hlines. rewrite Hsize, Hlines.
    split; [done |]. cbn [trace emit store]. by rewrite <- app_assoc.
  - intros size -> Hsize.
    assert ((MAX_BYTES <? size) = true) as -> by (apply Z.ltb_lt; lia).
    split; [done |]. cbn [trace emit store]. by rewrite <- app_assoc.
  - intros size lines -> -> Hsize Hlines.
    apply Z.ltb_ge in Hsize. rewrite Hsize.
    assert ((MAX_LINES <? PyStr.len lines) = true) as ->
      by (apply Z.ltb_lt; lia).
    split; [done |]. cbn [trace emit store]. by rewrite <- !app_assoc.
  - destruct (getsize f) as [e | size];
      [by eexists; cbn [trace emit store]; rewrite <- app_assoc |].
    destruct (MAX_BYTES <? size);
      [by eexists; cbn [trace emit store]; rewrite <- app_assoc |].
    destruct (readlines f) as [e | lines];
      [by eexists; cbn [trace emit store]; rewrite <- !app_assoc |].
    destruct (MAX_LINES <? PyStr.len lines);
      [by eexists; cbn [trace emit store]; rewrite <- !app_assoc |].
    by eexists; cbn [trace emit store]; rewrite <- !app_assoc.
Qed.

(** A file of exactly 102400 bytes and exactly 1000 lines is recorded. *)
Lemma size_and_line_ceilings_witness :
  let lines := List.repeat ("x" +:+ PyStr.LF) 1000 in
  repo_data (process_file [] "repo" EmptyString initial_state
               ("a.txt", File (inr 102400) (inr lines)))
  = <["a.txt" := PyStr.join_empty lines]> ∅.
Proof.
  intros lines.
  pose proof (size_and_line_ceilings [] "repo" EmptyString "a.txt"
                (File (inr 102400) (inr lines)) initial_state eq_refl)
    as (_ & _ & Hin & _).
  destruct (Hin 102400 lines eq_refl eq_refl) as [Hdata _].
  - unfold MAX_BYTES. lia.
  - vm_compute. discriminate.
  - exact Hdata.
Defined.

(** C4, as stated, fails on the ignore file: it is read outside the [try]
    block, so an ignore file that cannot be read makes the collection
    raise. *)
Lemma unreadable_gitignore_raises :
  let repo :=
    Dir [(".gitignore",
          File (inr 12) (inl (PermissionError "Permission denied")));
         ("main.py", File (inr 6) (inr ["x = 1" +:+ PyStr.LF]))] [] in
  generate_file_tree_and_content "repo" repo
    = inl (PermissionError "Permission denied") /\
  ~ exists st, generate_file_tree_and_content "repo" repo = inr st.
Proof.
  intros repo. split; [reflexivity |]. intros [st Hst]. discriminate Hst.
Qed.

(** C4 (amended).  When the ignore file is absent or can be read, the
    collection returns a mapping whatever happens on the files of the walk.
    A file on which the size query or the read raises leaves the accumulated
    mapping unchanged (last part); the mapping is the one collected on the
    same tree without those files, so every other file is recorded as it
    would be without them (second part); on a tree a file system can hold,
    the file at a path on which the [try] block raises is absent (third
    part) and every entry is the text of the file at its path, read within
    both ceilings (fourth part). *)
Theorem collect_survives_file_errors
    (repo_path : string) (repo : dir) (pats : list string) :
  load_gitignore repo = inr pats ->
  exists st,
    generate_file_tree_and_content repo_path repo = inr st /\
    repo_data st =
      repo_data (walk pats (drop_raising repo) repo_path EmptyString
                   initial_state) /\
    (wf_dir repo = true ->
     forall k f,
       lookup_file (PyStr.split PosixPath.sep k) repo = Some f ->
       raises f = true -> repo_data st !! k = None) /\
    (wf_dir repo = true ->
     forall k v,
       repo_data st !! k = Some v ->
       exists f,
         lookup_file (PyStr.split PosixPath.sep k) repo = Some f /\
         read_ok f v) /\
    (forall root rel st0 name f,
       raises f = true ->
       repo_data (process_file pats root rel st0 (name, f)) = repo_data st0).
Proof.
  intros Hload.
  exists (walk pats repo repo_path EmptyString initial_state).
  assert (wf_dir repo = true ->
          forall k v,
            repo_data (walk pats repo repo_path EmptyString initial_state)
              !! k = Some v ->
            exists f,
              lookup_file (PyStr.split PosixPath.sep k) repo = Some f /\
              read_ok f v) as Hsound.
  { intros Hwf k v Hv.
    destruct (walk_sound pats repo Hwf repo_path EmptyString initial_state
                k v eq_refl Hv)
      as [Hinit | (q & f & Hk & Hlook & Hok)].
    - cbn in Hinit. by rewrite lookup_empty in Hinit.
    - exists f. by rewrite Hk. }
  split; [| split; [| split; [| split]]].
  - unfold generate_file_tree_and_content. by rewrite Hload.
  - by apply walk_drop_raising.
  - intros Hwf k f Hlook Hraises.
    destruct (repo_data (walk pats repo repo_path EmptyString initial_state)
                !! k) as [v |] eqn:E; [| done].
    destruct (Hsound Hwf k v E) as (f' & Hlook' & Hok).
    apply read_ok_not_raises in Hok. congruence.
  - exact Hsound.
  - intros root rel st0 name f Hraises. rewrite process_file_repo_data.
    by rewrite (admission_raises pats rel (name, f) Hraises).
Qed.

(** A file whose read raises is absent and the run still returns. *)
Lemma collect_survives_file_errors_witness :
  let bad := File (inr 6) (inl (UnicodeDecodeError "invalid start byte")) in
  let repo :=
    Dir [("bad.txt", bad);
         ("good.txt", File (inr 6) (inr ["hello" +:+ PyStr.LF]))] [] in
  exists st,
    generate_file_tree_and_content "repo" repo = inr st /\
    repo_data st !! "bad.txt" = None.
Proof.
  intros bad repo.
  destruct (collect_survives_file_errors "repo" repo [] eq_refl)
    as (st & Hgen & _ & Habsent & _).
  exists st. split; [exact Hgen |].
  apply (Habsent eq_refl "bad.txt" bad); reflexivity.
Defined.

(** C5.  If a path starts with one of the patterns, or one of the patterns is
    one of the segments of the path split on the separator, the path is
    ignored (first part); and [is_ignored] is the disjunction of the
    extension rule, the file-name rule and, over all patterns, of these two
    literal tests (second part).  Neither part needs the pattern to be
    non-empty. *)
Theorem is_ignored_pattern_match (P : string) (pats : list string) :
  (forall pat, In pat pats ->
     PyStr.startswith P pat = true \/ In pat (PyStr.split PosixPath.sep P) ->
     is_ignored P pats = true) /\
  (is_ignored P pats = true <->
     extension_rule P = true \/ filename_rule P = true \/
     exists pat, In pat pats /\
       (PyStr.startswith P pat = true \/
        In pat (PyStr.split PosixPath.sep P))).
Proof.
  assert (is_ignored P pats = true <->
     extension_rule P = true \/ filename_rule P = true \/
     exists pat, In pat pats /\
       (PyStr.startswith P pat = true \/
        In pat (PyStr.split PosixPath.sep P))) as Hiff.
  { rewrite is_ignored_rules, !orb_true_iff, existsb_exists.
    split.
    - intros [[H | H] | [pat [Hin Hp]]]; [by left | by right; left |].
      right; right. exists pat. by rewrite <- pattern_rule_true.
    - intros [H | [H | [pat [Hin Hp]]]]; [by left; left | by left; right |].
      right. exists pat. by rewrite pattern_rule_true. }
  split; [| exact Hiff].
  intros pat Hin Hp. apply Hiff. right; right. by exists pat.
Qed.

(** The pattern [build] matches [buildx/main.c] by the prefix test, and
    [src/build/main.c] by the segment test. *)
Lemma is_ignored_pattern_match_witness :
  is_ignored "buildx/main.c" ["dist"; "build"] = true /\
  is_ignored "src/build/main.c" ["dist"; "build"] = true.
Proof.
  split.
  - apply (proj1 (is_ignored_pattern_match "buildx/main.c" ["dist"; "build"])
             "build"); [simpl; auto | left; reflexivity].
  - apply (proj1 (is_ignored_pattern_match "src/build/main.c"
                    ["dist"; "build"]) "build");
      [simpl; auto | right; simpl; auto].
Defined.

(** C6.  A path whose final segment (of the path split on the separator),
    lower-cased, is in the file-name deny-list is ignored, whatever the
    patterns. *)
Theorem is_ignored_excluded_filename (P : string) (pats : list string) :
  In (PyStr.lower (List.last (PyStr.split PosixPath.sep P) EmptyString))
     EXCLUDED_FILES ->
  is_ignored P pats = true.
Proof.
  intros Hin. rewrite is_ignored_rules.
  assert (filename_rule P = true) as ->; [| by rewrite orb_true_r].
  unfold filename_rule. rewrite basename_last_split. by apply contains_In.
Qed.

Lemma is_ignored_excluded_filename_witness :
  is_ignored "docs/License.TXT" ["node_modules"] = true.
Proof.
  apply (is_ignored_excluded_filename "docs/License.TXT" ["node_modules"]).
  vm_compute. auto.
Defined.

(** C7.  Without an entry named [.gitignore] in the repository directory,
    [load_gitignore] returns the empty list and does not raise; with a
    readable file of that name, it returns what the specification's rule
    gives on the lines of the file: the trimmed text of every line that is
    neither blank after trimming nor [#]-prefixed, in file order. *)
Theorem load_gitignore_spec (root : dir) :
  (has_name ".gitignore" (dir_files root) = false ->
   has_name ".gitignore" (dir_subdirs root) = false ->
   load_gitignore root = inr []) /\
  (forall name f lines,
     List.find (fun e => String.eqb (fst e) ".gitignore") (dir_files root)
       = Some (name, f) ->
     readlines f = inr lines ->
     load_gitignore root = inr (spec_patterns lines) /\
     spec_patterns lines =
       List.map PyStr.strip
         (List.filter
            (fun line => negb (String.eqb (PyStr.strip line) EmptyString) &&
                         negb (PyStr.startswith line "#")) lines)).
Proof.
  split.
  - intros Hf Hd. unfold load_gitignore.
    by rewrite (has_name_find_none _ _ Hf), Hd.
  - intros name f lines Hfind Hread. unfold load_gitignore.
    rewrite Hfind, Hread, gitignore_patterns_spec. split; [done |].
    by rewrite <- gitignore_patterns_spec.
Qed.

Lemma load_gitignore_spec_witness :
  load_gitignore (Dir [("main.py", File (inr 10) (inr ["x = 1"]))] [])
    = inr [] /\
  load_gitignore
    (Dir [(".gitignore",
           File (inr 30)
                (inr ["# build output" +:+ PyStr.LF; PyStr.LF;
                      "  dist/  " +:+ PyStr.LF; "*.log"]))] [])
    = inr ["dist/"; "*.log"].
Proof.
  split.
  - apply (proj1 (load_gitignore_spec
                    (Dir [("main.py", File (inr 10) (inr ["x = 1"]))] [])));
      reflexivity.
  - apply (proj2 (load_gitignore_spec
                    (Dir [(".gitignore",
                           File (inr 30)
                                (inr ["# build output" +:+ PyStr.LF; PyStr.LF;
                                      "  dist/  " +:+ PyStr.LF; "*.log"]))]
                         []))
             ".gitignore"
             (File (inr 30)
                   (inr ["# build output" +:+ PyStr.LF; PyStr.LF;
                         "  dist/  " +:+ PyStr.LF; "*.log"]))
             ["# build output" +:+ PyStr.LF; PyStr.LF;
              "  dist/  " +:+ PyStr.LF; "*.log"]);
      reflexivity.
Defined.

(** C8.  [get_depth] is at least 1 and counts the segments of the path split
    on the separator, that is one more than the separators in it; the empty
    string splits into one empty segment and has depth 1. *)
Theorem get_depth_counts_segments (s : string) :
  1 <= get_depth s /\
  get_depth s = Z.of_nat (length (PyStr.split PosixPath.sep s)) /\
  get_depth s = 1 + Z.of_nat (count_char PosixPath.sep s) /\
  PyStr.split PosixPath.sep EmptyString = [EmptyString] /\
  get_depth EmptyString = 1.
Proof.
  unfold get_depth, PyStr.len. rewrite split_length.
  repeat split; lia.
Qed.

(** C9.  The comment test looks at the untrimmed line.  A line of the ignore
    file made of white space followed by [#] is not dropped: its trimmed
    text, which starts with [#], is one of the patterns. *)
Theorem indented_comment_becomes_pattern
    (lines : list string) (ws rest : string) :
  ws <> EmptyString -> all_space ws ->
  In (ws +:+ String "#" rest) lines ->
  In (PyStr.strip (ws +:+ String "#" rest)) (gitignore_patterns lines) /\
  PyStr.startswith (PyStr.strip (ws +:+ String "#" rest)) "#" = true.
Proof.
  intros Hne Hws Hin.
  destruct (indented_hash_kept ws rest Hne Hws) as [Hraw [r Hr]].
  split.
  - unfold gitignore_patterns. apply in_map, filter_In. split; [done |].
    rewrite Hraw, Hr. reflexivity.
  - rewrite Hr. reflexivity.
Qed.

Lemma indented_comment_becomes_pattern_witness :
  In "# note" (gitignore_patterns ["src"; "  # note" +:+ PyStr.LF]).
Proof.
  apply (indented_comment_becomes_pattern
           ["src"; "  # note" +:+ PyStr.LF] "  "
           (" note" +:+ PyStr.LF)).
  - discriminate.
  - intros c [<- | [<- | []]]; reflexivity.
  - simpl. auto.
Defined.

(** C10.  The extension rule is a suffix test on the whole path and the entry
    [tar.lz] has no leading dot: every path that ends in "tar.lz" is ignored,
    for instance "avatar.lz", although ".lz" is not deny-listed. *)
Theorem tar_lz_suffix_is_ignored (p : string) (pats : list string) :
  is_ignored (p +:+ "tar.lz") pats = true /\
  is_ignored "avatar.lz" pats = true /\
  In "tar.lz" EXCLUDED_EXTENSIONS /\
  ~ In ".lz" EXCLUDED_EXTENSIONS /\
  ~ In ".tar.lz" EXCLUDED_EXTENSIONS.
Proof.
  assert (In "tar.lz" EXCLUDED_EXTENSIONS) as Hin by (simpl; auto 12).
  split; [| split; [| split; [| split]]].
  - apply (is_ignored_suffix _ "tar.lz"); [done | apply endswith_app].
  - apply (is_ignored_suffix _ "tar.lz"); [done | reflexivity].
  - done.
  - simpl. intros H. repeat (destruct H as [H | H]; [discriminate H |]). done.
  - simpl. intros H. repeat (destruct H as [H | H]; [discriminate H |]). done.
Qed.

(** * Further properties of the code *)

Section IgnoreMore.

Lemma split_segments_no_sep (c : ascii) (s seg : string) :
  In seg (PyStr.split c s) -> count_char c seg = O.
Proof.
  revert seg. induction s as [|d s IH]; intros seg.
  - simpl. intros [<- | []]. done.
  - simpl. destruct (Ascii.eqb d c) eqn:E.
    + intros [<- | H]; [done | by apply IH].
    + pose proof (split_not_nil c s) as Hne.
      destruct (PyStr.split c s) as [|a rest]; [done |].
      intros [<- | H].
      * simpl. rewrite E. apply IH. by left.
      * apply IH. by right.
Qed.

Lemma startswith_app_l (D x pat : string) :
  PyStr.startswith D pat = true -> PyStr.startswith (D +:+ x) pat = true.
Proof.
  intros H. apply startswith_spec in H as [t ->].
  apply startswith_spec. exists (t +:+ x). by rewrite string_app_assoc.
Qed.

Lemma rstrip_cons (c : ascii) (s : string) :
  PyStr.rstrip (String c s) =
  match PyStr.rstrip s with
  | EmptyString =>
      if PyStr.isspace c then EmptyString else String c EmptyString
  | String a b => String c (String a b)
  end.
Proof. reflexivity. Qed.

Lemma rstrip_idem (s : string) :
  PyStr.rstrip (PyStr.rstrip s) = PyStr.rstrip s.
Proof.
  induction s as [|c s IH]; [done |]. rewrite rstrip_cons.
  destruct (PyStr.rstrip s) as [|d r] eqn:E.
  - destruct (PyStr.isspace c) eqn:Hc; [done |].
    rewrite rstrip_cons. simpl. by rewrite Hc.
  - rewrite rstrip_cons, IH. done.
Qed.

Lemma lstrip_head (s : string) :
  PyStr.lstrip s = EmptyString \/
  exists c t, PyStr.lstrip s = String c t /\ PyStr.isspace c = false.
Proof.
  induction s as [|c s IH]; [by left |]. simpl.
  destruct (PyStr.isspace c) eqn:Hc; [exact IH |]. right. by exists c, s.
Qed.

Lemma strip_idem (s : string) : PyStr.strip (PyStr.strip s) = PyStr.strip s.
Proof.
  unfold PyStr.strip.
  destruct (lstrip_head s) as [-> | (c & t & -> & Hc)]; [done |].
  destruct (rstrip_keeps_head c t Hc) as [r Hr].
  rewrite Hr at 1. simpl PyStr.lstrip. rewrite Hc, <- Hr.
  apply rstrip_idem.
Qed.

End IgnoreMore.

(** X1.  Ignoring is monotone in the patterns: a path ignored under a list
    of patterns is ignored under every list that contains those patterns,
    in any order and with any others added. *)
Theorem is_ignored_monotone (P : string) (pats pats' : list string) :
  (forall pat, In pat pats -> In pat pats') ->
  is_ignored P pats = true -> is_ignored P pats' = true.
Proof.
  intros Hincl. rewrite !is_ignored_rules, !orb_true_iff, !existsb_exists.
  intros [H | (pat & Hin & Hp)]; [by left |].
  right. exists pat. split; [by apply Hincl | done].
Qed.

Lemma is_ignored_monotone_witness :
  is_ignored "node_modules/x.js" ["dist"; "node_modules"; "build"] = true.
Proof.
  apply (is_ignored_monotone "node_modules/x.js" ["node_modules"]
           ["dist"; "node_modules"; "build"]).
  - intros pat [<- | []]. simpl. auto.
  - reflexivity.
Defined.

(** X2.  A pattern that contains the separator can only match as a prefix
    of the path: the segments of a split path never contain the separator,
    so the segment test fails for it.  With only such patterns,
    [is_ignored] is the extension rule, the file-name rule, or a prefix
    match. *)
Theorem separator_patterns_match_by_prefix_only
    (P : string) (pats : list string) :
  (forall pat, In pat pats -> (1 <= count_char PosixPath.sep pat)%nat) ->
  is_ignored P pats =
  extension_rule P || filename_rule P || existsb (PyStr.startswith P) pats.
Proof.
  intros Hsep. rewrite is_ignored_rules. f_equal.
  induction pats as [|pat pats IH]; [done |]. simpl.
  rewrite IH by (intros q Hq; apply Hsep; by right). f_equal.
  unfold pattern_rule.
  destruct (PyStr.contains (PyStr.split PosixPath.sep P) pat) eqn:E;
    [| by rewrite orb_false_r].
  apply contains_In, split_segments_no_sep in E.
  specialize (Hsep pat (or_introl eq_refl)). lia.
Qed.

(** The pattern [vendor/] does not match the directory path [vendor], and
    matches [vendor/a.py]. *)
Lemma separator_patterns_match_by_prefix_only_witness :
  is_ignored "vendor" ["vendor/"] = false /\
  is_ignored "vendor/a.py" ["vendor/"] = true.
Proof.
  split.
  - rewrite (separator_patterns_match_by_prefix_only "vendor" ["vendor/"]).
    + reflexivity.
    + intros pat [<- | []]. simpl. lia.
  - rewrite (separator_patterns_match_by_prefix_only "vendor/a.py"
               ["vendor/"]).
    + reflexivity.
    + intros pat [<- | []]. simpl. lia.
Defined.

(** X3.  A pattern match is inherited: when a pattern matches a directory
    path, by prefix or as one of its segments, every path below that
    directory is ignored. *)
Theorem is_ignored_inherited
    (D rest pat : string) (pats : list string) :
  In pat pats ->
  PyStr.startswith D pat = true \/ In pat (PyStr.split PosixPath.sep D) ->
  is_ignored (D +:+ PosixPath.sep_str +:+ rest) pats = true.
Proof.
  intros Hin Hmatch. rewrite is_ignored_rules, !orb_true_iff. right.
  apply existsb_exists. exists pat. split; [done |].
  apply pattern_rule_true. destruct Hmatch as [Hpre | Hseg].
  - left. by apply startswith_app_l.
  - right. unfold PosixPath.sep_str.
    rewrite string_app_cons, string_app_nil_l, split_app_sep.
    apply in_or_app. by left.
Qed.

Lemma is_ignored_inherited_witness :
  is_ignored "src/vendor/lib/a.py" ["vendor"] = true.
Proof.
  apply (is_ignored_inherited "src/vendor" "lib/a.py" "vendor" ["vendor"]).
  - simpl. auto.
  - right. simpl. auto.
Defined.

(** X4.  Every pattern that [load_gitignore] returns is non-empty and has
    no white space left at either end: trimming it again changes nothing. *)
Theorem loaded_patterns_are_trimmed
    (root : dir) (pats : list string) (p : string) :
  load_gitignore root = inr pats -> In p pats ->
  p <> EmptyString /\ PyStr.strip p = p.
Proof.
  unfold load_gitignore. intros Hload Hin.
  assert (exists lines, pats = gitignore_patterns lines) as [lines ->].
  { destruct (List.find _ (dir_files root)) as [[n f] |].
    - destruct (readlines f) as [e | lines]; [done |].
      injection Hload as <-. by exists lines.
    - destruct (has_name ".gitignore" (dir_subdirs root)); [done |].
      injection Hload as <-. by exists []. }
  unfold gitignore_patterns in Hin.
  apply in_map_iff in Hin as (line & <- & Hline).
  apply filter_In in Hline as [_ Hkeep].
  apply andb_true_iff in Hkeep as [Hne _].
  apply negb_true_iff, String.eqb_neq in Hne.
  split; [done | apply strip_idem].
Qed.

Lemma loaded_patterns_are_trimmed_witness :
  "dist/" <> EmptyString /\ PyStr.strip "dist/" = "dist/".
Proof.
  apply (loaded_patterns_are_trimmed
           (Dir [(".gitignore",
                  File (inr 30)
                       (inr ["  dist/  " +:+ PyStr.LF; "*.log"]))] [])
           ["dist/"; "*.log"] "dist/").
  - reflexivity.
  - simpl. auto.
Defined.

Section WalkMore.

Variable pats : list string.

Lemma walk_unfold_dirs (fs : list (string * file)) (ds : list (string * dir))
    (root rel : string) (st : state) :
  walk pats (Dir fs ds) root rel st =
  if MAX_DEPTH <=? get_depth rel
  then descend root rel (listed_dirs pats ds) st
  else descend root rel (kept_dirs pats rel ds)
         (fold_left (process_file pats root rel) fs st).
Proof. reflexivity. Qed.

Lemma join_empty_l (b : string) : PosixPath.join EmptyString b = b.
Proof.
  unfold PosixPath.join.
  by destruct (PyStr.startswith b PosixPath.sep_str).
Qed.

Lemma valid_name_no_sep_end (m : string) :
  valid_name m = true -> PyStr.endswith m PosixPath.sep_str = false.
Proof.
  intros Hm. apply valid_name_spec in Hm as [_ Hcnt].
  destruct (PyStr.endswith m PosixPath.sep_str) eqn:E; [| done].
  apply endswith_sep_count in E. lia.
Qed.

Lemma join_valid_names (m n : string) :
  valid_name m = true -> valid_name n = true ->
  PosixPath.join m n = m +:+ PosixPath.sep_str +:+ n.
Proof.
  intros Hm Hn. pose proof (valid_name_no_sep_end m Hm) as Hend.
  apply valid_name_spec in Hm as [Hne _].
  apply valid_name_spec in Hn as [_ Hcnt].
  unfold PosixPath.join. rewrite Hend, orb_false_r.
  destruct (PyStr.startswith n PosixPath.sep_str) eqn:E.
  - apply startswith_sep_count in E. lia.
  - apply String.eqb_neq in Hne. by rewrite Hne.
Qed.

Lemma split_two_names (m n : string) :
  valid_name m = true -> valid_name n = true ->
  PyStr.split PosixPath.sep (m +:+ PosixPath.sep_str +:+ n) = [m; n].
Proof.
  intros Hm Hn.
  apply valid_name_spec in Hm as [_ Hm]. apply valid_name_spec in Hn as [_ Hn].
  unfold PosixPath.sep_str.
  rewrite string_app_cons, string_app_nil_l, split_app_sep.
  by rewrite (split_no_sep _ m), (split_no_sep _ n).
Qed.

Lemma get_depth_valid (m : string) :
  valid_name m = true -> get_depth m = 1.
Proof.
  intros Hm. apply valid_name_spec in Hm as [_ Hm].
  rewrite get_depth_count, Hm. done.
Qed.

(** Whatever is listed in a directory named by one valid name lies at the
    depth ceiling. *)
Lemma get_depth_below_child (m n : string) :
  valid_name m = true -> MAX_DEPTH <= get_depth (PosixPath.join m n).
Proof.
  intros Hm. pose proof (valid_name_no_sep_end m Hm) as Hend.
  apply valid_name_spec in Hm as [Hne _].
  rewrite get_depth_count. unfold MAX_DEPTH, PosixPath.join.
  destruct (PyStr.startswith n PosixPath.sep_str) eqn:E.
  - apply startswith_sep_count in E. lia.
  - rewrite Hend, orb_false_r. apply String.eqb_neq in Hne. rewrite Hne.
    rewrite !count_char_app. simpl. lia.
Qed.

Lemma listed_dirs_In (ds : list (string * dir)) (x : string * walker) :
  In x (listed_dirs pats ds) ->
  exists e, In e ds /\ x = (fst e, walk pats (snd e)).
Proof.
  unfold listed_dirs. cbv zeta. intros Hx.
  assert (In x (List.map (fun e => (fst e, walk pats (snd e))) ds)) as Hin.
  { destruct (has_name ".git" _); [by apply In_remove_name in Hx | done]. }
  apply in_map_iff in Hin as (e & <- & He). by exists e.
Qed.

Lemma remove_name_neq {A} (name : string) (l : list (string * A))
    (x : string * A) :
  no_dup (List.map fst l) = true -> In x (remove_name name l) ->
  fst x <> name.
Proof.
  induction l as [|e l IH]; [done |]. simpl.
  rewrite andb_true_iff, negb_true_iff. intros [Hfresh Hnd].
  destruct (String.eqb (fst e) name) eqn:E.
  - apply String.eqb_eq in E. subst name. intros Hx Heq.
    assert (PyStr.contains (List.map fst l) (fst e) = true) as Hc.
    { apply contains_In. rewrite <- Heq. by apply in_map. }
    congruence.
  - intros [<- | Hx]; [by apply String.eqb_neq | by apply IH].
Qed.

Lemma has_name_false {A} (name : string) (l : list (string * A))
    (x : string * A) :
  has_name name l = false -> In x l -> fst x <> name.
Proof.
  unfold has_name. intros Hf Hx Heq.
  assert (existsb (fun e => String.eqb (fst e) name) l = true) as Ht.
  { apply existsb_exists. exists x. split; [done |].
    by apply String.eqb_eq. }
  congruence.
Qed.

Lemma remove_name_other {A} (name : string) (l : list (string * A))
    (x : string * A) :
  In x l -> fst x <> name -> In x (remove_name name l).
Proof.
  induction l as [|e l IH]; [done |]. simpl. intros [-> | Hx] Hne.
  - apply String.eqb_neq in Hne. rewrite Hne. by left.
  - destruct (String.eqb (fst e) name); [done |]. right. by apply IH.
Qed.

(** The sub-directories that are walked below a directory under the depth
    ceiling: the listed ones, except [.git] and the ignored ones. *)
Lemma kept_dirs_In (rel : string) (ds : list (string * dir))
    (x : string * walker) :
  no_dup (List.map fst ds) = true ->
  In x (kept_dirs pats rel ds) <->
  exists e,
    In e ds /\ x = (fst e, walk pats (snd e)) /\ fst e <> ".git" /\
    is_ignored (PosixPath.join rel (fst e)) pats = false.
Proof.
  intros Hnd. unfold kept_dirs. rewrite filter_In, negb_true_iff.
  assert (List.map fst (List.map (fun e => (fst e, walk pats (snd e))) ds)
          = List.map fst ds) as Hnames.
  { rewrite List.map_map. done. }
  split.
  - intros [Hx Hign]. destruct (listed_dirs_In ds x Hx) as (e & He & ->).
    exists e. split; [done |]. split; [done |]. split; [| done].
    unfold listed_dirs in Hx. cbv zeta in Hx.
    destruct (has_name ".git" _) eqn:Hgit.
    + apply remove_name_neq in Hx; [done | by rewrite Hnames].
    + by apply (has_name_false _ _ _ Hgit) in Hx.
  - intros (e & He & -> & Hgit & Hign). split; [| done].
    unfold listed_dirs. cbv zeta.
    assert (In (fst e, walk pats (snd e))
              (List.map (fun e => (fst e, walk pats (snd e))) ds)) as Hin.
    { apply in_map_iff. by exists e. }
    destruct (has_name ".git" _); [| done].
    by apply remove_name_other.
Qed.

Lemma descend_unchanged (root rel : string) (dirs : list (string * walker))
    (st : state) :
  (forall x st', In x dirs ->
     repo_data (snd x (PosixPath.join root (fst x))
                      (PosixPath.join rel (fst x)) st') = repo_data st') ->
  repo_data (descend root rel dirs st) = repo_data st.
Proof.
  intros Hx. unfold descend.
  apply (fold_left_inv (fun st' => repo_data st' = repo_data st)); [done |].
  intros x st' Hin Hq. by rewrite Hx.
Qed.

(** A sub-directory of the repository contributes its own files and
    nothing of what is below it. *)
Lemma walk_child (c : dir) (root m : string) (st : state) :
  valid_name m = true ->
  repo_data (walk pats c root m st) =
  repo_data (fold_left (process_file pats root m) (dir_files c) st).
Proof.
  intros Hm. destruct c as [fs ds]. rewrite walk_unfold_dirs.
  rewrite (get_depth_valid m Hm). change (MAX_DEPTH <=? 1) with false.
  cbv iota. apply descend_unchanged. intros x st' Hx.
  apply filter_In in Hx as [Hx _].
  apply listed_dirs_In in Hx as (e & _ & ->). cbn [fst snd].
  apply walk_deep. by apply get_depth_below_child.
Qed.

Lemma walk_root (fs : list (string * file)) (ds : list (string * dir))
    (root : string) (st : state) :
  walk pats (Dir fs ds) root EmptyString st =
  descend root EmptyString (kept_dirs pats EmptyString ds)
    (fold_left (process_file pats root EmptyString) fs st).
Proof. by rewrite walk_unfold_dirs. Qed.

(** ** Keys never leave the mapping *)

Lemma process_file_keeps (root rel k : string) (st : state)
    (e : string * file) :
  is_Some (repo_data st !! k) ->
  is_Some (repo_data (process_file pats root rel st e) !! k).
Proof.
  intros Hk. rewrite process_file_repo_data.
  destruct (admission pats rel e) as [text |]; [| done].
  destruct (decide (PosixPath.join rel (fst e) = k)) as [<- | Hne].
  - rewrite lookup_insert_eq. by eexists.
  - by rewrite lookup_insert_ne.
Qed.

Lemma walk_keeps (d : dir) (k : string) :
  forall root rel st,
    is_Some (repo_data st !! k) ->
    is_Some (repo_data (walk pats d root rel st) !! k).
Proof.
  induction d as [fs ds IH] using dir_ind_nested. intros root rel st Hk.
  apply (walk_inv pats (fun st' => is_Some (repo_data st' !! k))); [done | |].
  - intros _ e st' _. apply process_file_keeps.
  - intros e st' He. rewrite Forall_forall in IH.
    apply IH. by apply list_elem_of_In.
Qed.

Lemma fold_left_reach {A} (Q : state -> Prop) (f : state -> A -> state)
    (l : list A) (x : A) (st : state) :
  In x l -> (forall st', Q (f st' x)) ->
  (forall y st', In y l -> Q st' -> Q (f st' y)) ->
  Q (fold_left f l st).
Proof.
  revert st. induction l as [|y l IH]; intros st Hin Hx Hkeep; [done |].
  simpl. destruct Hin as [-> | Hin].
  - apply fold_left_inv; [apply Hx |].
    intros z st' Hz. apply Hkeep. by right.
  - apply IH; [done | done |]. intros z st' Hz. apply Hkeep. by right.
Qed.

Lemma fold_files_present (root rel : string) (fs : list (string * file))
    (e : string * file) (v : string) (st : state) :
  In e fs -> admission pats rel e = Some v ->
  is_Some (repo_data (fold_left (process_file pats root rel) fs st)
             !! PosixPath.join rel (fst e)).
Proof.
  intros Hin Hadm.
  apply (fold_left_reach
           (fun st' => is_Some (repo_data st' !! PosixPath.join rel (fst e)))
           _ fs e); [done | |].
  - intros st'. rewrite process_file_repo_data, Hadm, lookup_insert_eq.
    by eexists.
  - intros y st' _. apply process_file_keeps.
Qed.

End WalkMore.

Section SnapshotExact.

Variable pats : list string.

Lemma no_dup_functional {A} (l : list (string * A)) (n : string) (a b : A) :
  no_dup (List.map fst l) = true -> In (n, a) l -> In (n, b) l -> a = b.
Proof.
  intros Hnd Ha Hb.
  pose proof (find_no_dup l (n, a) Hnd Ha) as Hfa.
  pose proof (find_no_dup l (n, b) Hnd Hb) as Hfb.
  cbn [fst] in Hfa, Hfb. congruence.
Qed.

Lemma root_walk_sound (fs : list (string * file)) (ds : list (string * dir))
    (root k : string) :
  wf_dir (Dir fs ds) = true ->
  forall v,
    repo_data (walk pats (Dir fs ds) root EmptyString initial_state) !! k
      = Some v ->
    snapshot_entry pats (Dir fs ds) k v.
Proof.
  intros Hwf. apply wf_dir_inv in Hwf as (Hfs & Hds & Hndf & Hndd & Hsub).
  rewrite walk_root. unfold descend.
  apply (fold_left_inv
           (fun st' => forall v, repo_data st' !! k = Some v ->
                       snapshot_entry pats (Dir fs ds) k v)).
  - apply (fold_left_inv
             (fun st' => forall v, repo_data st' !! k = Some v ->
                         snapshot_entry pats (Dir fs ds) k v)).
    + intros v Hv. cbn in Hv. by rewrite lookup_empty in Hv.
    + intros e st' He Hq v. rewrite process_file_repo_data.
      destruct (admission pats EmptyString e) as [text |] eqn:Hadm;
        [| apply Hq].
      rewrite join_empty_l.
      destruct (decide (fst e = k)) as [<- | Hne];
        [| rewrite lookup_insert_ne by done; apply Hq].
      rewrite lookup_insert_eq. intros [= <-]. left. exists (snd e).
      destruct e as [n f]. by split.
  - intros x st' Hx Hq.
    apply kept_dirs_In in Hx as (e & He & -> & Hgit & Hign); [| done].
    cbn [fst snd]. rewrite join_empty_l in Hign |- *.
    pose proof (Hds e He) as Hm. intros v. rewrite (walk_child pats) by done.
    revert v.
    apply (fold_left_inv
             (fun st'' => forall v, repo_data st'' !! k = Some v ->
                          snapshot_entry pats (Dir fs ds) k v)); [done |].
    intros e' st'' He' Hq' v. rewrite process_file_repo_data.
    destruct (admission pats (fst e) e') as [text |] eqn:Hadm;
      [| apply Hq'].
    destruct (decide (PosixPath.join (fst e) (fst e') = k)) as [<- | Hne];
      [| rewrite lookup_insert_ne by done; apply Hq'].
    rewrite lookup_insert_eq. intros [= <-]. right.
    assert (valid_name (fst e') = true) as Hn.
    { specialize (Hsub e He). destruct (snd e) as [fs' ds'].
      apply wf_dir_inv in Hsub as (Hfs' & _). by apply Hfs'. }
    exists (fst e), (snd e), (fst e'), (snd e').
    split; [by apply join_valid_names |].
    destruct e as [m c], e' as [n f]. done.
Qed.

Lemma root_walk_present (fs : list (string * file))
    (ds : list (string * dir)) (root k v : string) :
  wf_dir (Dir fs ds) = true ->
  snapshot_entry pats (Dir fs ds) k v ->
  is_Some (repo_data (walk pats (Dir fs ds) root EmptyString initial_state)
             !! k).
Proof.
  intros Hwf Hentry.
  apply wf_dir_inv in Hwf as (Hfs & Hds & Hndf & Hndd & Hsub).
  rewrite walk_root. unfold descend.
  destruct Hentry as [(f & Hin & Hadm)
                     | (m & c & n & f & -> & Hmc & Hgit & Hign & Hin & Hadm)].
  - apply (fold_left_inv (fun st' => is_Some (repo_data st' !! k))).
    + pose proof (fold_files_present pats root EmptyString fs (k, f) v
                    initial_state Hin Hadm) as Hp.
      by rewrite join_empty_l in Hp.
    + intros x st' Hx Hq.
      apply kept_dirs_In in Hx as (e & _ & -> & _); [| done].
      by apply walk_keeps.
  - pose proof (Hds (m, c) Hmc) as Hm. cbn [fst] in Hm.
    assert (valid_name n = true) as Hn.
    { specialize (Hsub (m, c) Hmc). cbn [snd] in Hsub.
      destruct c as [fs' ds'].
      apply wf_dir_inv in Hsub as (Hfs' & _). by apply (Hfs' (n, f)). }
    apply (fold_left_reach
             (fun st' => is_Some (repo_data st'
                                    !! (m +:+ PosixPath.sep_str +:+ n)))
             _ _ (m, walk pats c)).
    + apply kept_dirs_In; [done |]. exists (m, c).
      by rewrite join_empty_l.
    + intros st'. cbn [fst snd]. rewrite join_empty_l.
      rewrite (walk_child pats) by done.
      rewrite <- (join_valid_names m n Hm Hn).
      by apply (fold_files_present pats _ m (dir_files c) (n, f) v).
    + intros y st' Hy Hq.
      apply kept_dirs_In in Hy as (e & _ & -> & _); [| done].
      by apply walk_keeps.
Qed.

Lemma snapshot_entry_functional (repo : dir) (k v v' : string) :
  wf_dir repo = true ->
  snapshot_entry pats repo k v -> snapshot_entry pats repo k v' -> v = v'.
Proof.
  destruct repo as [fs ds]. intros Hwf.
  apply wf_dir_inv in Hwf as (Hfs & Hds & Hndf & Hndd & Hsub).
  assert (forall f m n, In (k, f) fs ->
            valid_name m = true -> valid_name n = true ->
            k <> m +:+ PosixPath.sep_str +:+ n) as Hmix.
  { intros f m n Hin Hm Hn ->. apply Hfs, valid_name_spec in Hin as [_ Hc].
    cbn [fst] in Hc. rewrite !count_char_app in Hc. simpl in Hc. lia. }
  assert (forall m c, In (m, c) ds ->
            valid_name m = true /\
            no_dup (List.map fst (dir_files c)) = true /\
            forall e, In e (dir_files c) -> valid_name (fst e) = true)
    as Hchild.
  { intros m c Hmc. split; [by apply (Hds (m, c)) |].
    specialize (Hsub (m, c) Hmc). cbn [snd] in Hsub.
    destruct c as [fs' ds'].
    apply wf_dir_inv in Hsub as (Hfs' & _ & Hnd' & _). done. }
  cbn [dir_files dir_subdirs].
  intros [(f & Hin & Hadm)
         | (m & c & n & f & Hk & Hmc & _ & _ & Hin & Hadm)]
         [(f' & Hin' & Hadm')
         | (m' & c' & n' & f' & Hk' & Hmc' & _ & _ & Hin' & Hadm')].
  - assert (f = f') as <- by by apply (no_dup_functional fs k).
    congruence.
  - destruct (Hchild m' c' Hmc') as (Hm' & _ & Hv').
    exfalso. apply (Hmix f m' n'); [done | done | | done].
    by apply (Hv' (n', f')).
  - destruct (Hchild m c Hmc) as (Hm & _ & Hv).
    exfalso. apply (Hmix f' m n); [done | done | | done].
    by apply (Hv (n, f)).
  - destruct (Hchild m c Hmc) as (Hm & Hnd & Hv).
    destruct (Hchild m' c' Hmc') as (Hm' & _ & Hv').
    pose proof (Hv (n, f) Hin) as Hn. pose proof (Hv' (n', f') Hin') as Hn'.
    cbn [fst] in Hn, Hn'.
    assert ([m; n] = [m'; n']) as Heq.
    { rewrite <- (split_two_names m n), <- (split_two_names m' n') by done.
      by rewrite <- Hk, <- Hk'. }
    injection Heq as <- <-.
    assert (c = c') as <- by by apply (no_dup_functional ds m).
    assert (f = f') as <- by by apply (no_dup_functional (dir_files c) n).
    congruence.
Qed.

(** The mapping collected from a well-formed tree holds exactly the entries
    of [snapshot_entry]. *)
Lemma root_walk_exact (repo : dir) (root k v : string) :
  wf_dir repo = true ->
  repo_data (walk pats repo root EmptyString initial_state) !! k = Some v <->
  snapshot_entry pats repo k v.
Proof.
  intros Hwf. destruct repo as [fs ds]. split.
  - by apply root_walk_sound.
  - intros Hentry.
    destruct (root_walk_present fs ds root k v Hwf Hentry) as [v' Hv'].
    rewrite Hv'. f_equal.
    apply (snapshot_entry_functional (Dir fs ds) k); [done | | done].
    by apply (root_walk_sound fs ds root).
Qed.

(** An entry below the sub-directory [m] needs [m] to be walked. *)
Lemma entry_below_dir (repo : dir) (m rest v : string) :
  wf_dir repo = true -> valid_name m = true ->
  snapshot_entry pats repo (m +:+ PosixPath.sep_str +:+ rest) v ->
  m <> ".git" /\ is_ignored m pats = false.
Proof.
  destruct repo as [fs ds]. intros Hwf Hm.
  apply wf_dir_inv in Hwf as (Hfs & Hds & _ & _ & Hsub).
  assert (PyStr.split PosixPath.sep (m +:+ PosixPath.sep_str +:+ rest)
          = m :: PyStr.split PosixPath.sep rest) as Hsplit.
  { unfold PosixPath.sep_str.
    rewrite string_app_cons, string_app_nil_l, split_app_sep.
    apply valid_name_spec in Hm as [_ Hm]. by rewrite (split_no_sep _ m). }
  intros [(f & Hin & _) | (m' & c & n & f & Hk & Hmc & Hgit & Hign & Hin & _)].
  - apply Hfs, valid_name_spec in Hin as [_ Hc]. cbn [fst] in Hc.
    rewrite !count_char_app in Hc. simpl in Hc. lia.
  - pose proof (Hds (m', c) Hmc) as Hm'. cbn [fst] in Hm'.
    assert (valid_name n = true) as Hn.
    { specialize (Hsub (m', c) Hmc). cbn [snd] in Hsub.
      destruct c as [fs' ds'].
      apply wf_dir_inv in Hsub as (Hfs' & _). by apply (Hfs' (n, f)). }
    rewrite Hk, (split_two_names m' n Hm' Hn) in Hsplit.
    injection Hsplit as <- _. done.
Qed.

(** No key of the mapping is an ignored path. *)
Lemma walk_keys_not_ignored (d : dir) :
  forall root rel st,
    (forall k, is_Some (repo_data st !! k) -> is_ignored k pats = false) ->
    forall k,
      is_Some (repo_data (walk pats d root rel st) !! k) ->
      is_ignored k pats = false.
Proof.
  induction d as [fs ds IH] using dir_ind_nested. intros root rel st Hst.
  apply (walk_inv pats
           (fun st' => forall k, is_Some (repo_data st' !! k) ->
                       is_ignored k pats = false)); [done | |].
  - intros _ e st' _ Hq k. rewrite process_file_repo_data.
    destruct (admission pats rel e) as [text |] eqn:Hadm; [| apply Hq].
    destruct (decide (PosixPath.join rel (fst e) = k)) as [<- | Hne].
    + intros _. by apply (admission_Some pats) in Hadm as [Hign _].
    + rewrite lookup_insert_ne by done. apply Hq.
  - intros e st' He Hq. rewrite Forall_forall in IH.
    apply IH; [by apply list_elem_of_In | done].
Qed.

End SnapshotExact.

Section TraceFacts.

Variable pats : list string.





End TraceFacts.

(** X5.  On a tree a file system can hold, whose ignore file is absent or
    readable, the collected mapping is exactly this: under its name, every
    file of the repository directory that passes admission (ignore rules,
    size, read, line count), with its text; and under [dir/name], every
    file that passes admission in a sub-directory [dir] of the repository
    that is neither [.git] nor ignored.  Files one level below the
    repository are thus collected, files deeper are not. *)
Theorem snapshot_exact (repo_path : string) (repo : dir)
    (pats : list string) :
  wf_dir repo = true ->
  load_gitignore repo = inr pats ->
  exists st,
    generate_file_tree_and_content repo_path repo = inr st /\
    forall k v,
      repo_data st !! k = Some v <-> snapshot_entry pats repo k v.
Proof.
  intros Hwf Hload.
  exists (walk pats repo repo_path EmptyString initial_state). split.
  - unfold generate_file_tree_and_content. by rewrite Hload.
  - intros k v. by apply root_walk_exact.
Qed.

(** The file [a/x.txt], one level below the repository, is collected. *)
Lemma snapshot_exact_witness :
  let text := File (inr 6) (inr ["hello" +:+ PyStr.LF]) in
  let repo :=
    Dir [("README.md", text)]
        [("a", Dir [("x.txt", text)] [("b", Dir [("c.txt", text)] [])])] in
  exists st,
    generate_file_tree_and_content "repo" repo = inr st /\
    repo_data st !! "a/x.txt" = Some ("hello" +:+ PyStr.LF).
Proof.
  intros text repo.
  destruct (snapshot_exact "repo" repo [] eq_refl eq_refl) as (st & Hgen & Hk).
  exists st. split; [exact Hgen |]. apply Hk. right.
  exists "a", (Dir [("x.txt", text)] [("b", Dir [("c.txt", text)] [])]),
         "x.txt", text.
  split; [reflexivity |]. split; [simpl; auto |].
  split; [discriminate |]. split; [reflexivity |].
  split; [simpl; auto | reflexivity].
Defined.

(** X6.  Nothing below a directory named [.git] in the repository is ever
    collected. *)
Theorem git_directory_never_collected
    (repo_path : string) (repo : dir) (st : state) (rest : string) :
  wf_dir repo = true ->
  generate_file_tree_and_content repo_path repo = inr st ->
  repo_data st !! (".git/" +:+ rest) = None.
Proof.
  intros Hwf Hgen. unfold generate_file_tree_and_content in Hgen.
  destruct (load_gitignore repo) as [e | pats]; [done |].
  injection Hgen as <-.
  destruct (repo_data _ !! _) as [v |] eqn:E; [| done]. exfalso.
  apply (root_walk_exact pats repo repo_path _ v Hwf) in E.
  change (".git/" +:+ rest)
    with (".git" +:+ PosixPath.sep_str +:+ rest) in E.
  apply (entry_below_dir pats repo ".git" rest v Hwf eq_refl) in E as [E _].
  done.
Qed.

Lemma git_directory_never_collected_witness :
  let text := File (inr 6) (inr ["hello" +:+ PyStr.LF]) in
  let repo := Dir [("README.md", text)] [(".git", Dir [("config", text)] [])] in
  repo_data (walk [] repo "repo" EmptyString initial_state) !! ".git/config"
    = None.
Proof.
  intros text repo.
  apply (git_directory_never_collected "repo" repo
           (walk [] repo "repo" EmptyString initial_state) "config");
    reflexivity.
Defined.

(** X7.  Nothing below an ignored sub-directory of the repository is
    collected, whether the files in it are ignored themselves or not: the
    directory is not walked. *)
Theorem ignored_directory_is_pruned
    (repo_path : string) (repo : dir) (pats : list string) (st : state)
    (m : string) (c : dir) (rest : string) :
  wf_dir repo = true ->
  load_gitignore repo = inr pats ->
  generate_file_tree_and_content repo_path repo = inr st ->
  In (m, c) (dir_subdirs repo) ->
  is_ignored m pats = true ->
  repo_data st !! (m +:+ PosixPath.sep_str +:+ rest) = None.
Proof.
  intros Hwf Hload Hgen Hmc Hign.
  unfold generate_file_tree_and_content in Hgen. rewrite Hload in Hgen.
  injection Hgen as <-.
  destruct (repo_data _ !! _) as [v |] eqn:E; [| done]. exfalso.
  apply (root_walk_exact pats repo repo_path _ v Hwf) in E.
  assert (valid_name m = true) as Hm.
  { destruct repo as [fs ds].
    apply wf_dir_inv in Hwf as (_ & Hds & _). by apply (Hds (m, c)). }
  apply (entry_below_dir pats repo m rest v Hwf Hm) in E as [_ E].
  congruence.
Qed.

(** The directory [data.zip] is ignored by its suffix; the file
    [data.zip/readme.txt] in it is not ignored by itself, and is absent. *)
Lemma ignored_directory_is_pruned_witness :
  let text := File (inr 6) (inr ["hello" +:+ PyStr.LF]) in
  let repo := Dir [] [("data.zip", Dir [("readme.txt", text)] [])] in
  is_ignored "data.zip/readme.txt" [] = false /\
  repo_data (walk [] repo "repo" EmptyString initial_state)
    !! "data.zip/readme.txt" = None.
Proof.
  intros text repo. split; [reflexivity |].
  apply (ignored_directory_is_pruned "repo" repo []
           (walk [] repo "repo" EmptyString initial_state) "data.zip"
           (Dir [("readme.txt", text)] []) "readme.txt"
           eq_refl eq_refl eq_refl).
  - simpl. auto.
  - reflexivity.
Defined.

(** X8.  No key of the collected mapping is an ignored path: every recorded
    key fails the extension rule, the file-name rule and every pattern. *)
Theorem recorded_keys_are_not_ignored
    (repo_path : string) (repo : dir) (pats : list string) (st : state)
    (k : string) :
  load_gitignore repo = inr pats ->
  generate_file_tree_and_content repo_path repo = inr st ->
  is_Some (repo_data st !! k) ->
  is_ignored k pats = false.
Proof.
  intros Hload Hgen.
  unfold generate_file_tree_and_content in Hgen. rewrite Hload in Hgen.
  injection Hgen as <-.
  apply (walk_keys_not_ignored pats repo repo_path EmptyString initial_state).
  intros k' [v Hv]. cbn in Hv. by rewrite lookup_empty in Hv.
Qed.

Lemma recorded_keys_are_not_ignored_witness :
  is_ignored "src/main.py" ["dist"; "build"] = false.
Proof.
  apply (recorded_keys_are_not_ignored "repo"
           (Dir [(".gitignore",
                  File (inr 11) (inr ["dist" +:+ PyStr.LF; "build"]))]
                [("src", Dir [("main.py", File (inr 6) (inr ["x = 1"]))] [])])
           ["dist"; "build"]
           (walk ["dist"; "build"]
              (Dir [(".gitignore",
                     File (inr 11) (inr ["dist" +:+ PyStr.LF; "build"]))]
                   [("src",
                     Dir [("main.py", File (inr 6) (inr ["x = 1"]))] [])])
              "repo" EmptyString initial_state)
           "src/main.py").
  - reflexivity.
  - reflexivity.
  - exists "x = 1". vm_compute. reflexivity.
Defined.



Section TopLevel.

Variable chat : list message -> exn + string.
Variable json_dumps : gmap string string -> string.

Lemma printed_logs (l : list event) : printed (List.map TLog l) = [].
Proof. induction l as [|e l IH]; [done | exact IH]. Qed.

Lemma chat_calls_logs (l : list event) : chat_calls (List.map TLog l) = [].
Proof. induction l as [|e l IH]; [done | exact IH]. Qed.

Lemma printed_app (a b : list top_event) :
  printed (a ++ b) = printed a ++ printed b.
Proof. apply omap_app. Qed.

Lemma chat_calls_app (a b : list top_event) :
  chat_calls (a ++ b) = chat_calls a ++ chat_calls b.
Proof. apply omap_app. Qed.

(** [send_message_to_llm] on a non-empty list: one call of the client, and
    the answer or the error text comes back. *)
Lemma send_message_nonempty (messages : list message) :
  messages <> [] ->
  printed (fst (send_message_to_llm chat messages)) = [] /\
  chat_calls (fst (send_message_to_llm chat messages)) = [messages] /\
  snd (send_message_to_llm chat messages) =
    match chat messages with
    | inl e => "Error: " +:+ str_exn e
    | inr text => text
    end.
Proof.
  intros Hne. unfold send_message_to_llm.
  destruct (last messages) as [m |] eqn:E;
    [| by apply last_None in E].
  by destruct (chat messages).
Qed.

(** One repository whose ignore file loads: no exception, one call of the
    client, one printed response. *)
Lemma handle_repo_ok (root_path : string) (entry : string * dir) :
  is_Some (snapshot_of root_path entry) ->
  snd (handle_repo chat json_dumps root_path entry) = None /\
  printed (fst (handle_repo chat json_dumps root_path entry)) =
    [response_line (fst entry)
       (repo_reply chat json_dumps root_path entry)] /\
  chat_calls (fst (handle_repo chat json_dumps root_path entry)) =
    [repo_messages json_dumps root_path entry].
Proof.
  unfold repo_reply, repo_messages, snapshot_of, handle_repo.
  intros [data Hdata].
  destruct (generate_file_tree_and_content _ (snd entry)) as [e | st];
    [done |].
  cbv zeta. cbn [fst snd].
  destruct (send_message_nonempty
              [Message "user" (prompt json_dumps (fst entry) (repo_data st))])
    as (Hp & Hc & Hr); [done |].
  split; [done |]. split.
  - change (printed (TLog ?e :: ?l)) with (printed l).
    rewrite !printed_app, printed_logs, Hp, Hr. done.
  - change (chat_calls (TLog ?e :: ?l)) with (chat_calls l).
    rewrite !chat_calls_app, chat_calls_logs, Hc. done.
Qed.

(** One repository whose ignore file does not load: the exception leaves,
    after the start of the repository was logged. *)
Lemma handle_repo_raises (root_path : string) (entry : string * dir)
    (e : exn) :
  load_gitignore (snd entry) = inl e ->
  handle_repo chat json_dumps root_path entry =
    ([TLog (EvLogInfo ("Processing repository: " +:+ fst entry))], Some e).
Proof.
  intros Hload. unfold handle_repo, generate_file_tree_and_content.
  by rewrite Hload.
Qed.

Lemma handle_repo_list_ok (root_path : string) (repos : list (string * dir)) :
  (forall entry, In entry repos -> is_Some (snapshot_of root_path entry)) ->
  snd (handle_repo_list chat json_dumps root_path repos) = None /\
  printed (fst (handle_repo_list chat json_dumps root_path repos)) =
    List.map (fun entry =>
                response_line (fst entry)
                  (repo_reply chat json_dumps root_path entry)) repos /\
  chat_calls (fst (handle_repo_list chat json_dumps root_path repos)) =
    List.map (repo_messages json_dumps root_path) repos.
Proof.
  induction repos as [|entry repos IH]; intros Hall; [done |].
  destruct (handle_repo_ok root_path entry) as (Hs & Hp & Hc);
    [apply Hall; by left |].
  destruct IH as (IHs & IHp & IHc); [intros x Hx; apply Hall; by right |].
  cbn [handle_repo_list].
  destruct (handle_repo chat json_dumps root_path entry) as [evs r].
  cbn [fst snd] in Hs, Hp, Hc. subst r. cbn [fst snd].
  split; [done |]. rewrite printed_app, chat_calls_app, Hp, Hc, IHp, IHc.
  done.
Qed.

Lemma handle_repo_list_raises (root_path : string)
    (before after : list (string * dir)) (entry : string * dir) (e : exn) :
  (forall x, In x before -> is_Some (snapshot_of root_path x)) ->
  load_gitignore (snd entry) = inl e ->
  handle_repo_list chat json_dumps root_path (before ++ entry :: after) =
    (fst (handle_repo_list chat json_dumps root_path before) ++
       [TLog (EvLogInfo ("Processing repository: " +:+ fst entry))],
     Some e).
Proof.
  intros Hall Hload. induction before as [|x before IH].
  - cbn [app handle_repo_list]. by rewrite (handle_repo_raises _ _ e).
  - destruct (handle_repo_ok root_path x) as (Hs & _); [apply Hall; by left |].
    cbn [app handle_repo_list].
    destruct (handle_repo chat json_dumps root_path x) as [evs r].
    cbn [snd] in Hs. subst r.
    rewrite IH by (intros y Hy; apply Hall; by right).
    cbn [fst snd]. by rewrite app_assoc.
Qed.

End TopLevel.

(** X10.  [send_message_to_llm] never lets a failure of the chat client
    escape and reports it in band: with a non-empty message list it calls
    the client exactly once and returns its answer, or "Error: " followed by
    the message of the exception; with an empty list it does not call the
    client and returns the text of the index error. *)
Theorem send_message_contract
    (chat : list message -> exn + string) (messages : list message) :
  (messages <> [] ->
   chat_calls (fst (send_message_to_llm chat messages)) = [messages] /\
   (forall text, chat messages = inr text ->
      snd (send_message_to_llm chat messages) = text) /\
   (forall e, chat messages = inl e ->
      snd (send_message_to_llm chat messages) = "Error: " +:+ str_exn e)) /\
  (messages = [] ->
   chat_calls (fst (send_message_to_llm chat messages)) = [] /\
   snd (send_message_to_llm chat messages) =
     "Error: list index out of range").
Proof.
  split.
  - intros Hne.
    destruct (send_message_nonempty chat messages Hne) as (_ & Hc & Hr).
    split; [done |]. rewrite Hr. split.
    + by intros text ->.
    + by intros e ->.
  - by intros ->.
Qed.

Lemma send_message_contract_witness :
  snd (send_message_to_llm
         (fun _ => inl (OSError "connection refused"))
         [Message "user" "hello"])
  = "Error: connection refused".
Proof.
  apply (proj2 (proj2 (proj1 (send_message_contract
                  (fun _ => inl (OSError "connection refused"))
                  [Message "user" "hello"]) ltac:(discriminate)))
           (OSError "connection refused") eq_refl).
Defined.

(** X11.  When the ignore file of every repository loads, [handle_repos]
    ends without exception whatever the chat client does, and it goes
    through the repositories in order: one call of the client per
    repository, with the single user message built for it, and one printed
    response per repository, which carries the error text when the client
    raised. *)
Theorem handle_repos_survives_chat_failures
    (chat : list message -> exn + string)
    (json_dumps : gmap string string -> string)
    (repo_paths : list (string * dir)) :
  (forall x, In x (all_repos repo_paths) ->
     is_Some (snapshot_of (fst x) (snd x))) ->
  snd (handle_repos chat json_dumps repo_paths) = None /\
  printed (fst (handle_repos chat json_dumps repo_paths)) =
    List.map (fun x =>
                response_line (fst (snd x))
                  (repo_reply chat json_dumps (fst x) (snd x)))
             (all_repos repo_paths) /\
  chat_calls (fst (handle_repos chat json_dumps repo_paths)) =
    List.map (fun x => repo_messages json_dumps (fst x) (snd x))
             (all_repos repo_paths).
Proof.
  induction repo_paths as [|[root_path d] rest IH]; intros Hall; [done |].
  unfold all_repos in *. cbn [flat_map fst snd] in *.
  destruct (handle_repo_list_ok chat json_dumps root_path (dir_subdirs d))
    as (Hs & Hp & Hc).
  { intros entry Hentry.
    apply (Hall (root_path, entry)), in_or_app. left. by apply in_map. }
  destruct IH as (IHs & IHp & IHc).
  { intros x Hx. apply Hall, in_or_app. by right. }
  cbn [handle_repos].
  destruct (handle_repo_list chat json_dumps root_path (dir_subdirs d))
    as [evs r].
  cbn [fst snd] in Hs, Hp, Hc. subst r. cbn [fst snd].
  split; [done |].
  rewrite printed_app, chat_calls_app, Hp, Hc, IHp, IHc.
  rewrite !List.map_app, !List.map_map. done.
Qed.

Lemma handle_repos_survives_chat_failures_witness :
  let text := File (inr 6) (inr ["hello" +:+ PyStr.LF]) in
  let parent :=
    Dir [("notes.txt", text)]
        [("alpha", Dir [("README.md", text)] []);
         ("beta", Dir [("main.py", text)] [])] in
  let chat := fun _ : list message =>
                inl (OSError "connection refused") : exn + string in
  printed (fst (handle_repos chat (fun _ => "{}") [("../", parent)])) =
    [response_line "alpha" "Error: connection refused";
     response_line "beta" "Error: connection refused"].
Proof.
  intros text parent chat.
  destruct (handle_repos_survives_chat_failures chat (fun _ => "{}")
              [("../", parent)]) as (_ & Hp & _).
  - intros x [<- | [<- | []]]; by eexists.
  - exact Hp.
Defined.

(** X12.  A repository whose ignore file exists and cannot be read stops
    the whole run: [handle_repos] ends with that exception right after
    logging the start of that repository; the repositories before it were
    handled, and neither the repositories after it nor the remaining paths
    have any effect on the outcome. *)
Theorem unreadable_ignore_file_stops_the_run
    (chat : list message -> exn + string)
    (json_dumps : gmap string string -> string)
    (root_path : string) (fs : list (string * file))
    (before after : list (string * dir)) (name : string) (d : dir)
    (more : list (string * dir)) (e : exn) :
  (forall x, In x before -> is_Some (snapshot_of root_path x)) ->
  load_gitignore d = inl e ->
  handle_repos chat json_dumps
    ((root_path, Dir fs (before ++ (name, d) :: after)) :: more) =
  (fst (handle_repo_list chat json_dumps root_path before) ++
     [TLog (EvLogInfo ("Processing repository: " +:+ name))],
   Some e).
Proof.
  intros Hall Hload. cbn [handle_repos dir_subdirs].
  by rewrite (handle_repo_list_raises chat json_dumps root_path before after
                (name, d) e Hall Hload).
Qed.

Lemma unreadable_ignore_file_stops_the_run_witness :
  let text := File (inr 6) (inr ["hello" +:+ PyStr.LF]) in
  let locked :=
    Dir [(".gitignore",
          File (inr 12) (inl (PermissionError "Permission denied")))] [] in
  handle_repos (fun _ => inr "fine") (fun _ => "{}")
    [("../", Dir [] [("alpha", locked);
                     ("beta", Dir [("main.py", text)] [])])] =
  ([TLog (EvLogInfo "Processing repository: alpha")],
   Some (PermissionError "Permission denied")).
Proof.
  intros text locked.
  apply (unreadable_ignore_file_stops_the_run
           (fun _ => inr "fine") (fun _ => "{}") "../" []
           [] [("beta", Dir [("main.py", text)] [])] "alpha" locked []
           (PermissionError "Permission denied")).
  - intros x [].
  - reflexivity.
Defined.
